(** * Event-study core: a shallow embedding of [core/data.py], [core/stats.py]
    and [core/event_study.py], and the properties of its specification.

    Conventions of the embedding.
    - A 64-bit float is the kernel's binary64 [float]; the missing marker is
      [nan], tested by [is_nan] (pandas' [isna]/[notna] on a float).
    - A UTC timestamp is its number of nanoseconds since the epoch, a [Z];
      pandas holds that number in 64 bits, and the arithmetic of the window
      slicer raises where it leaves that range.
    - A [pd.Series] is the list of its (label, value) rows, in row order;
      labels may repeat, as in pandas.
    - A Python exception is the [Raise] case of [result], with its class and
      the gist of its message; a computation that cannot raise is a plain
      function. *)

From Stdlib Require Import String ZArith List Finite Sorted Bool Lia Floats Uint63.
From Stdlib Require Import Permutation.
From Stdlib Require DecimalString.
Import ListNotations.
Open Scope Z_scope.

(** ** Exceptions *)

Inductive exn : Type :=
| ValueError (msg : string)
| TypeError (msg : string)
| LinAlgError (msg : string)
| OutOfBoundsDatetime (msg : string)
| OutOfBoundsTimedelta (msg : string).

Inductive result (A : Type) : Type :=
| Ok (a : A)
| Raise (e : exn).
Arguments Ok {A} a.
Arguments Raise {A} e.

Definition bind {A B : Type} (c : result A) (k : A -> result B) : result B :=
  match c with
  | Ok a => k a
  | Raise e => Raise e
  end.

Notation "x <- c ;; k" := (bind c (fun x => k))
  (at level 61, c at next level, right associativity).

Definition raises {A : Type} (c : result A) : Prop :=
  exists e, c = Raise e.

Definition len {A : Type} (l : list A) : Z := Z.of_nat (length l).

(** ** Series *)

Definition Series : Type := list (Z * float).

Definition index (s : Series) : list Z := map fst s.
Definition values (s : Series) : list float := map snd s.

(** [pd.isna] on a float: true on NaN only (infinities are not missing). *)
Definition isna (v : float) : bool := is_nan v.
Definition notna (v : float) : bool := negb (is_nan v).

(** [Series.dropna()] *)
Definition dropna (s : Series) : Series :=
  filter (fun p => notna (snd p)) s.

(** First row carrying label [t], if any. *)
Fixpoint get_value (s : Series) (t : Z) : option float :=
  match s with
  | [] => None
  | (t', v) :: rest => if t' =? t then Some v else get_value rest t
  end.

Fixpoint mem (t : Z) (l : list Z) : bool :=
  match l with
  | [] => false
  | x :: rest => (x =? t) || mem t rest
  end.

(** [Index.is_unique] *)
Fixpoint is_unique (l : list Z) : bool :=
  match l with
  | [] => true
  | x :: rest => negb (mem x rest) && is_unique rest
  end.

(** [Index.equals] *)
Fixpoint index_equals (l1 l2 : list Z) : bool :=
  match l1, l2 with
  | [], [] => true
  | x :: r1, y :: r2 => (x =? y) && index_equals r1 r2
  | _, _ => false
  end.

(** The value at label [t], the missing marker when the label is absent. *)
Definition getnan (s : Series) (t : Z) : float :=
  match get_value s t with
  | Some v => v
  | None => nan
  end.

(** [Series.reindex(target)]: the series itself when the labels already are
    [target]; otherwise one row per target label, [nan] where the series has
    no such label; pandas refuses to do that on repeated labels. *)
Definition reindex (s : Series) (target : list Z) : result Series :=
  if index_equals (index s) target then Ok s
  else if is_unique (index s) then Ok (map (fun t => (t, getnan s t)) target)
  else Raise (ValueError "cannot reindex on an axis with duplicate labels").

(** One hour, in nanoseconds. *)
Definition hour : Z := 3600000000000.

(** [pd.date_range(start, stop, freq="h")]: [start], [start + 1h], ... up to
    and including [stop] when it is on that grid; empty when [stop < start]. *)
Definition date_range (start stop : Z) : list Z :=
  if stop <? start then []
  else map (fun k => start + Z.of_nat k * hour)
           (seq 0 (S (Z.to_nat ((stop - start) / hour)))).

Definition index_min (t : Z) (ts : list Z) : Z := fold_right Z.min t ts.
Definition index_max (t : Z) (ts : list Z) : Z := fold_right Z.max t ts.

(** The clock of pandas: a [Timestamp] and a [Timedelta] hold a signed 64-bit
    count of nanoseconds, the least 64-bit value standing for NaT. *)
Definition int64_min : Z := -9223372036854775808.
Definition int64_max : Z := 9223372036854775807.

Definition on_clock (v : Z) : bool := (int64_min <? v) && (v <=? int64_max).

(** [pd.Timedelta(hours=h)] *)
Definition Timedelta_hours (h : Z) : result Z :=
  if on_clock (h * hour) then Ok (h * hour)
  else Raise (OutOfBoundsTimedelta "Cannot cast to unit='ns' without overflow").

(** [t + delta] on a [Timestamp] and a [Timedelta] *)
Definition timestamp_add (t delta : Z) : result Z :=
  if on_clock (t + delta) then Ok (t + delta)
  else Raise (OutOfBoundsDatetime "Cannot cast to unit='ns' without overflow").

(** [pd.date_range(start, stop, freq="h", tz="UTC")] on two timestamps: both
    ends have to be on the clock. *)
Definition pd_date_range (start stop : Z) : result (list Z) :=
  if on_clock start && on_clock stop then Ok (date_range start stop)
  else Raise (OutOfBoundsDatetime "Out of bounds nanosecond timestamp").

(** [Series.asfreq("h")]: an empty series is returned as it is; otherwise the
    series is reindexed onto the hourly grid from its least to its greatest
    label. *)
Definition asfreq (s : Series) : result Series :=
  match index s with
  | [] => Ok s
  | t :: ts =>
      idx <- pd_date_range (index_min t ts) (index_max t ts) ;;
      reindex s idx
  end.

(** [_slice_window(s, t0, window)] *)
Definition _slice_window (s : Series) (t0 : Z) (window : Z * Z) : result Series :=
  s' <- asfreq s ;;
  d0 <- Timedelta_hours (fst window) ;;
  start <- timestamp_add t0 d0 ;;
  d1 <- Timedelta_hours (snd window) ;;
  stop <- timestamp_add t0 d1 ;;
  idx <- pd_date_range start stop ;;
  reindex s' idx.

(** The timestamps the statements below range over: those on the clock, an
    hour clear of its end (how pandas lays a grid over the last hour of its
    clock is not modelled). *)
Definition reachable (t : Z) : bool :=
  (int64_min <? t) && (t + hour <=? int64_max).

Definition timestamps_in_range (labels : list Z) : bool := forallb reachable labels.

(** A window whose two hour offsets are durations of the clock and whose two
    ends are reachable from the anchor. *)
Definition window_in_range (t0 : Z) (window : Z * Z) : bool :=
  on_clock (fst window * hour) && reachable (t0 + fst window * hour)
  && on_clock (snd window * hour) && reachable (t0 + snd window * hour).

(** ** Numeric reductions of numpy and pandas

    Sums are accumulated left to right from [0]; numpy blocks long sums
    pairwise, which changes rounding only. *)

Definition float_of_nat (n : nat) : float :=
  of_uint63 (Uint63.of_Z (Z.of_nat n)).

Definition np_sum (vs : list float) : float := fold_left PrimFloat.add vs 0%float.

(** The fill of a skip-NaN reduction: a missing value counts as [0]. *)
Definition fillna0 (v : float) : float := if is_nan v then 0%float else v.

(** [Series.sum()], which skips missing values; [0] on an empty series. *)
Definition nansum (vs : list float) : float := np_sum (map fillna0 vs).

(** [Series.mean()], which skips missing values; [nan] when none is left. *)
Definition mean (vs : list float) : float :=
  let count := length (filter notna vs) in
  if Nat.eqb count 0 then nan else (nansum vs / float_of_nat count)%float.

(** [np.cumsum]: each entry is the previous entry plus the next value. *)
Fixpoint accumulate (acc : float) (vs : list float) : list float :=
  match vs with
  | [] => []
  | v :: rest => let a := (acc + v)%float in a :: accumulate a rest
  end.

Definition np_cumsum (vs : list float) : list float :=
  match vs with
  | [] => []
  | v :: rest => v :: accumulate v rest
  end.

(** [Series.cumsum()] (skipna is on by default): missing values are filled
    with [0], accumulated, and the missing positions are then masked again. *)
Definition cumsum (s : Series) : Series :=
  map (fun pc => (fst (fst pc), if is_nan (snd (fst pc)) then nan else snd pc))
      (combine s (np_cumsum (map fillna0 (values s)))).

(** Ascending sort of NaN-free floats. *)
Fixpoint insert_sorted (v : float) (l : list float) : list float :=
  match l with
  | [] => [v]
  | x :: rest => if (v <=? x)%float then v :: l else x :: insert_sorted v rest
  end.

Definition sort_floats (l : list float) : list float :=
  fold_right insert_sorted [] l.

(** Greatest [j <= k] with [j <= v], and [0] when there is none. *)
Fixpoint floor_index (v : float) (k : nat) : nat :=
  match k with
  | O => O
  | S k' => if (float_of_nat k <=? v)%float then k else floor_index v k'
  end.

(** numpy's interpolation between two neighbours. *)
Definition lerp (a b t : float) : float :=
  let d := (b - a)%float in
  if (0.5 <=? t)%float then (b - d * (1 - t))%float else (a + d * t)%float.

(** [np.percentile(sorted, q)] with the default linear method, on a sorted,
    non-empty array: the virtual index is [(n - 1) * q / 100]; at or beyond the
    last position both neighbours are the last element. *)
Definition percentile (sorted : list float) (q : float) : float :=
  let n1 := (length sorted - 1)%nat in
  let virt := (float_of_nat n1 * (q / 100))%float in
  let prev := floor_index virt n1 in
  let gamma := (virt - float_of_nat prev)%float in
  if (float_of_nat n1 <=? virt)%float
  then lerp (nth n1 sorted nan) (nth n1 sorted nan) gamma
  else lerp (nth prev sorted nan) (nth (S prev) sorted nan) gamma.

(** [np.nanpercentile(xs, q)]: missing values are removed first; [nan] when
    nothing is left. *)
Definition nanpercentile (xs : list float) (q : float) : float :=
  match filter notna xs with
  | [] => nan
  | kept => percentile (sort_floats kept) q
  end.

(** ** Index alignment *)

(** Insertion into an ascending list of distinct labels. *)
Fixpoint insert_label (t : Z) (l : list Z) : list Z :=
  match l with
  | [] => [t]
  | x :: rest =>
      if t <? x then t :: l
      else if t =? x then l
      else x :: insert_label t rest
  end.

(** [Index.union] of two datetime indexes: the distinct labels, ascending. *)
Definition sorted_union (a b : list Z) : list Z :=
  fold_right insert_label [] (a ++ b).

(** All values a series holds at label [t], in row order. *)
Definition values_at (s : Series) (t : Z) : list float :=
  map snd (filter (fun p => fst p =? t) s).

Definition or_missing (vs : list float) : list float :=
  match vs with
  | [] => [nan]
  | _ => vs
  end.

(** [left - right] on two series. Series with the same labels are subtracted
    row by row. Otherwise the operands are outer-joined on the union of their
    labels, a label absent from one side contributing [nan] (and a repeated
    label one row per pair of matching rows). *)
Definition series_sub (left right : Series) : Series :=
  if index_equals (index left) (index right)
  then map (fun pq => (fst (fst pq), (snd (fst pq) - snd (snd pq))%float))
           (combine left right)
  else flat_map
         (fun t => map (fun lr => (t, (fst lr - snd lr)%float))
                       (list_prod (or_missing (values_at left t))
                                  (or_missing (values_at right t))))
         (sorted_union (index left) (index right)).

(** A two-column frame: label, then the value of each column. *)
Definition Frame2 : Type := list (Z * (float * float)).

(** [Index.union] of two datetime indexes of which one may repeat labels:
    ascending, each label as often as the operand that repeats it most. *)
Definition union_index (a b : list Z) : list Z :=
  flat_map (fun t => repeat t (Nat.max (count_occ Z.eq_dec a t)
                                       (count_occ Z.eq_dec b t)))
           (sorted_union a b).

(** [pd.concat([x, y], axis=1)]: column by column when the labels agree;
    otherwise both columns are reindexed onto the union of the labels, which
    pandas refuses for a column that repeats a label and has other labels
    than the union. *)
Definition concat_axis1 (x y : Series) : result Frame2 :=
  if index_equals (index x) (index y)
  then Ok (map (fun pq => (fst (fst pq), (snd (fst pq), snd (snd pq))))
               (combine x y))
  else
    let labels := union_index (index x) (index y) in
    x' <- reindex x labels ;;
    y' <- reindex y labels ;;
    Ok (map (fun pq => (fst (fst pq), (snd (fst pq), snd (snd pq))))
            (combine x' y')).

(** [DataFrame.dropna()]: rows with a missing cell are removed. *)
Definition dropna2 (f : Frame2) : Frame2 :=
  filter (fun r => notna (fst (snd r)) && notna (snd (snd r))) f.

(** ** Tables *)

(** A price table: the column names it carries and its rows. A row holds the
    index and the two columns the core reads. *)
Record PriceRow : Type := {
  row_ts : Z;
  row_symbol : string;
  row_close : float
}.

Record DataFrame : Type := {
  columns : list string;
  rows : list PriceRow
}.

Definition has_column (df : DataFrame) (c : string) : bool :=
  existsb (String.eqb c) (columns df).

(** [df["close"]] *)
Definition close (df : DataFrame) : Series :=
  map (fun r => (row_ts r, row_close r)) (rows df).

Record EventRow : Type := {
  ev_event_id : string;
  ev_ts_utc : Z;
  ev_symbol : string
}.

(** [ensure_symbol_frame(df, symbol)]; the second message also lists the
    missing names. *)
Definition ensure_symbol_frame (df : DataFrame) (symbol : string)
  : result DataFrame :=
  if negb (has_column df "symbol")
  then Raise (ValueError "Input prices DataFrame must have a 'symbol' column.")
  else
    let sub := {| columns := columns df;
                  rows := filter (fun r => String.eqb (row_symbol r) symbol)
                                 (rows df) |} in
    if existsb (fun c => negb (has_column sub c)) ["open"; "high"; "low"; "close"]%string
    then Raise (ValueError ("Missing columns for " ++ symbol))
    else Ok sub.

(** ** Configuration and results *)

Record Windows : Type := {
  estimation : Z * Z;
  event : Z * Z
}.

Definition default_windows : Windows :=
  {| estimation := (-240, -24); event := (-24, 24) |}.

Record ModelCfg : Type := {
  benchmark : option string;
  use_bootstrap : bool;
  n_boot : Z
}.

Definition default_cfg : ModelCfg :=
  {| benchmark := Some "BTC-USD"%string; use_bootstrap := true; n_boot := 1000 |}.

Record EventResult : Type := {
  event_id : string;
  symbol : string;
  t0 : Z;
  ar : Series;
  car : Series;
  alpha : float;
  beta : float;
  car_ci : float * float
}.

Record AggregateResult : Type := {
  mean_ar : Series;
  mean_car : Series;
  agg_car_ci : float * float;
  per_event : list EventResult
}.

(** Python truthiness of an optional string: [None] and [""] are falsy. *)
Definition truthy (b : option string) : bool :=
  match b with
  | Some s => negb (String.eqb s "")
  | None => false
  end.

(** Python's [l[a:b]]: a negative bound counts from the end, and both bounds
    are clipped to the list. *)
Definition slice_bound (n i : Z) : Z :=
  if i <? 0 then Z.max 0 (i + n) else Z.min i n.

Definition iloc_slice {A : Type} (l : list A) (a b : Z) : list A :=
  let a' := slice_bound (len l) a in
  let b' := slice_bound (len l) b in
  firstn (Z.to_nat (b' - a')) (skipn (Z.to_nat a') l).

(** Element-wise operation of a series with a scalar. *)
Definition map_values (f : float -> float) (s : Series) : Series :=
  map (fun p => (fst p, f (snd p))) s.

(** [Series.diff()]: the first entry has no predecessor and is missing. *)
Fixpoint diff_from (prev : float) (s : Series) : Series :=
  match s with
  | [] => []
  | (t, v) :: rest => (t, (v - prev)%float) :: diff_from v rest
  end.

Definition diff (s : Series) : Series :=
  match s with
  | [] => []
  | (t, v) :: rest => (t, nan) :: diff_from v rest
  end.

(** [s.reset_index(drop=True)]: labels become the positions 0, 1, ... *)
Definition reset_index (s : Series) : Series :=
  combine (map Z.of_nat (seq 0 (length s))) (values s).

(** [pd.concat(cols, axis=1)] of position-labelled series, row by row: a
    column shorter than the longest one is missing in the rows it lacks. *)
Definition concat_columns (cols : list Series) : list (list float) :=
  let n := fold_right Nat.max 0%nat (map (@length _) cols) in
  map (fun i => map (fun c => nth i (values c) nan) cols) (seq 0 n).

(** [pd.RangeIndex(start, stop, step=1)] *)
Definition range_index (start stop : Z) : list Z :=
  map (fun k => start + Z.of_nat k) (seq 0 (Z.to_nat (stop - start))).

(** [s.index = idx]: pandas checks that the lengths agree. *)
Definition set_index (vals : list float) (idx : list Z) : result Series :=
  if Nat.eqb (length vals) (length idx) then Ok (combine idx vals)
  else Raise (ValueError "Length mismatch").

(** The last non-missing value of an event's CAR, [nan] when it has none. *)
Definition final_car (e : EventResult) : float :=
  match dropna (car e) with
  | [] => nan
  | p :: rest => snd (last rest p)
  end.

(** ** The rest of core/stats.py *)

(** [np.nanvar(values, ddof=1)] on a float array: missing values are filled
    with [0] and counted out; the deviations from the mean of the others are
    squared, the missing positions contributing [0]; the sum is divided by the
    count less one, and is [nan] when that is not positive. *)
Definition nanvar_ddof1 (vs : list float) : float :=
  let cnt := length (filter notna vs) in
  let avg := (np_sum (map fillna0 vs) / float_of_nat cnt)%float in
  let sqr := map (fun v => if is_nan v then (0 * 0)%float
                           else ((v - avg) * (v - avg))%float) vs in
  if (cnt <=? 1)%nat then nan
  else (np_sum sqr / float_of_nat (cnt - 1))%float.

(** [rolling_std(s)] *)
Definition rolling_std (s : Series) : float :=
  PrimFloat.sqrt (nanvar_ddof1 (values s)).

(** ** The loaders: core/events.py and the column helper of core/data.py *)

(** The loaders raise more kinds of exception than the core. *)
Inductive pyexn : Type :=
| CoreError (e : exn)
| AttributeError (msg : string)
| IndexError (msg : string).

Inductive outcome (A : Type) : Type :=
| Returned (a : A)
| Thrown (e : pyexn).
Arguments Returned {A} a.
Arguments Thrown {A} e.

(** [REQUIRED_COLS] *)
Definition REQUIRED_COLS : list string :=
  ["event_id"; "ts_utc"; "symbol"; "category"; "headline"; "source"; "direction"]%string.

(** A row of the events file as [pd.read_csv] returns it: a cell is a string,
    or missing. *)
Record RawEvent : Type := {
  raw_event_id : option string;
  raw_ts_utc : option string;
  raw_symbol : option string;
  raw_category : option string;
  raw_headline : option string;
  raw_source : option string;
  raw_direction : option string
}.

(** The table read from the file: its column names, its rows, and whether the
    direction column was read as text (it is not when every cell of a
    non-empty column is missing or numeric). *)
Record EventsCsv : Type := {
  csv_columns : list string;
  csv_rows : list RawEvent;
  csv_direction_text : bool
}.

(** A loaded event: the timestamp is parsed ([None] is pandas' NaT, for a
    missing cell) and the direction is normalised. *)
Record Event : Type := {
  e_event_id : option string;
  e_ts_utc : option Z;
  e_symbol : option string;
  e_category : option string;
  e_headline : option string;
  e_source : option string;
  e_direction : string
}.

Record EventsFrame : Type := {
  ef_columns : list string;
  ef_rows : list Event
}.

(** [str.lower()] on the ASCII letters.  The keys of the direction table are
    ASCII, and no other letter lower-cases to an ASCII letter of theirs, so
    this decides the same look-ups as Python's Unicode lower-casing. *)
Definition lower_ascii (c : Ascii.ascii) : Ascii.ascii :=
  let n := Ascii.nat_of_ascii c in
  if (65 <=? n)%nat && (n <=? 90)%nat then Ascii.ascii_of_nat (n + 32) else c.

Fixpoint str_lower (s : string) : string :=
  match s with
  | EmptyString => EmptyString
  | String c rest => String (lower_ascii c) (str_lower rest)
  end.

(** The dictionary of [load_events_csv]. *)
Definition direction_map : list (string * string) :=
  [("pos", "pos"); ("positive", "pos"); ("neg", "neg"); ("negative", "neg");
   ("neu", "neutral"); ("neutral", "neutral")]%string.

Fixpoint dict_get (k : string) (d : list (string * string)) : option string :=
  match d with
  | [] => None
  | (k', v) :: rest => if String.eqb k' k then Some v else dict_get k rest
  end.

(** One cell through [.str.lower().map({...}).fillna("neutral")]: a missing
    cell stays missing through the first two steps and is filled at the end,
    as is a string the dictionary does not know. *)
Definition normalize_direction (cell : option string) : string :=
  match cell with
  | None => "neutral"%string
  | Some s =>
      match dict_get (str_lower s) direction_map with
      | Some v => v
      | None => "neutral"%string
      end
  end.

(** The order of [sort_values("ts_utc")]: ascending, NaT last. *)
Definition ts_leb (a b : option Z) : bool :=
  match a, b with
  | Some x, Some y => x <=? y
  | Some _, None => true
  | None, Some _ => false
  | None, None => true
  end.

Fixpoint insert_by_ts (x : Event) (l : list Event) : list Event :=
  match l with
  | [] => [x]
  | y :: rest =>
      if ts_leb (e_ts_utc x) (e_ts_utc y) then x :: l
      else y :: insert_by_ts x rest
  end.

(** The sort keeps rows of equal timestamp in their order of the file; pandas
    does not promise that order. *)
Definition sort_by_ts (l : list Event) : list Event :=
  fold_right insert_by_ts [] l.

(** What [pd.to_datetime] has to read a column of text with: the format it
    guesses from a cell ([None] when it can guess none), the strict parse of a
    cell in a format, and the parse of a cell by dateutil. *)
Record DatetimeParser : Type := {
  guess_format : string -> option string;
  strptime : string -> string -> option Z;
  dateutil_parse : string -> option Z
}.

Fixpoint first_present (cells : list (option string)) : option string :=
  match cells with
  | [] => None
  | Some s :: _ => Some s
  | None :: rest => first_present rest
  end.

(** The parse [pd.to_datetime] applies to every cell of a column: in the
    format guessed from the first cell that is present, and by dateutil, cell
    by cell, when no format can be guessed from that cell. *)
Definition column_parser (P : DatetimeParser) (cells : list (option string))
  : string -> option Z :=
  match first_present cells with
  | Some s0 =>
      match guess_format P s0 with
      | Some fmt => strptime P fmt
      | None => dateutil_parse P
      end
  | None => dateutil_parse P
  end.

(** The cells of a column through one parse: a missing cell becomes NaT and
    a string that does not parse raises. *)
Fixpoint parse_timestamps (parse_utc : string -> option Z) (rows : list RawEvent)
  : outcome (list (RawEvent * option Z)) :=
  match rows with
  | [] => Returned []
  | r :: rest =>
      match raw_ts_utc r with
      | None =>
          match parse_timestamps parse_utc rest with
          | Returned l => Returned ((r, None) :: l)
          | Thrown e => Thrown e
          end
      | Some s =>
          match parse_utc s with
          | None => Thrown (CoreError (ValueError ("time data does not parse: " ++ s)))
          | Some t =>
              match parse_timestamps parse_utc rest with
              | Returned l => Returned ((r, Some t) :: l)
              | Thrown e => Thrown e
              end
          end
      end
  end.

(** Python's [repr] of a list of plain names. *)
Definition repr_names (names : list string) : string :=
  ("[" ++ String.concat ", " (map (fun c => "'" ++ c ++ "'") names) ++ "]")%string.

(** [pd.to_datetime(df["ts_utc"], utc=True)] *)
Definition to_datetime_utc (P : DatetimeParser) (rows : list RawEvent)
  : outcome (list (RawEvent * option Z)) :=
  parse_timestamps (column_parser P (map raw_ts_utc rows)) rows.

(** [load_events_csv(path)], from the table that [pd.read_csv(path)] returns *)
Definition load_events_csv (P : DatetimeParser) (df : EventsCsv)
  : outcome EventsFrame :=
  let missing :=
    filter (fun c => negb (existsb (String.eqb c) (csv_columns df))) REQUIRED_COLS in
  match missing with
  | _ :: _ =>
      Thrown (CoreError (ValueError ("Events CSV missing columns: " ++ repr_names missing)))
  | [] =>
      match to_datetime_utc P (csv_rows df) with
      | Thrown e => Thrown e
      | Returned parsed =>
          let with_ts (d : RawEvent -> string) :=
            sort_by_ts
              (map (fun rt => {| e_event_id := raw_event_id (fst rt);
                                 e_ts_utc := snd rt;
                                 e_symbol := raw_symbol (fst rt);
                                 e_category := raw_category (fst rt);
                                 e_headline := raw_headline (fst rt);
                                 e_source := raw_source (fst rt);
                                 e_direction := d (fst rt) |}) parsed) in
          if csv_direction_text df
          then Returned {| ef_columns := csv_columns df;
                           ef_rows := with_ts (fun r => normalize_direction (raw_direction r)) |}
          else Thrown (AttributeError "Can only use .str accessor with string values!")
      end
  end.

(** What a row of the file becomes once loaded. *)
Definition parsed_ts (parse_utc : string -> option Z) (r : RawEvent) : option Z :=
  match raw_ts_utc r with
  | None => None
  | Some s => parse_utc s
  end.

Definition loaded_event (parse_utc : string -> option Z) (r : RawEvent) : Event :=
  {| e_event_id := raw_event_id r;
     e_ts_utc := parsed_ts parse_utc r;
     e_symbol := raw_symbol r;
     e_category := raw_category r;
     e_headline := raw_headline r;
     e_source := raw_source r;
     e_direction := normalize_direction (raw_direction r) |}.

(** Every timestamp cell that is present parses. *)
Definition timestamps_parse (parse_utc : string -> option Z)
    (rows : list RawEvent) : Prop :=
  Forall (fun r => forall s, raw_ts_utc r = Some s -> parse_utc s <> None) rows.

(** The parse that the loader applies to the cells of a file. *)
Definition file_parser (P : DatetimeParser) (df : EventsCsv) : string -> option Z :=
  column_parser P (map raw_ts_utc (csv_rows df)).

(** A frame of named columns, for [_normalize_datetime_column]; the cells of
    a column are of any type [C]. *)
Definition NamedColumns (C : Type) : Type := list (string * C).

Definition column_names {C : Type} (df : NamedColumns C) : list string :=
  map fst df.

Definition has_name {C : Type} (df : NamedColumns C) (name : string) : bool :=
  existsb (String.eqb name) (column_names df).

(** [df.rename(columns={old: new})] *)
Definition rename_column {C : Type} (old new : string) (df : NamedColumns C)
  : NamedColumns C :=
  map (fun nc => if String.eqb (fst nc) old then (new, snd nc) else nc) df.

(** The column that becomes the timestamp: the first of the four usual names
    that the frame carries, else a column called index, else the first
    column; with no column at all [df.columns[0]] raises. *)
Definition datetime_source {C : Type} (df : NamedColumns C) : outcome string :=
  match find (has_name df) ["datetime"; "Datetime"; "date"; "Date"]%string with
  | Some cand => Returned cand
  | None =>
      if has_name df "index" then Returned "index"%string
      else match df with
           | [] => Thrown (IndexError "index 0 is out of bounds for axis 0 with size 0")
           | (first_col, _) :: _ => Returned first_col
           end
  end.

(** [_normalize_datetime_column(df)]; [to_datetime] is
    [pd.to_datetime(column, utc=True)].  When several columns end up with the
    name datetime, [df["datetime"]] is a frame, which [pd.to_datetime]
    refuses. *)
Definition _normalize_datetime_column {C : Type} (to_datetime : C -> outcome C)
    (df : NamedColumns C) : outcome (NamedColumns C) :=
  match datetime_source df with
  | Thrown e => Thrown e
  | Returned src =>
      let df1 := rename_column src "datetime" df in
      match filter (fun nc => String.eqb (fst nc) "datetime") df1 with
      | [(_, col)] =>
          match to_datetime col with
          | Thrown e => Thrown e
          | Returned col' =>
              Returned (map (fun nc => if String.eqb (fst nc) "datetime"
                                       then (fst nc, col') else nc) df1)
          end
      | _ => Thrown (CoreError (ValueError
               "to assemble mappings requires at least that [year, month, day] be specified"))
      end
  end.

(** ** The axis of core/plots.py *)

(** [np.arange(len(mean_ar)) - (len(mean_ar) // 2)]: the hours that
    [plot_mean_ar] and [plot_mean_car] put under the rows of a curve. *)
Definition rel_hours (n : nat) : list Z :=
  map (fun i => Z.of_nat i - Z.of_nat n / 2) (seq 0 n).

(** The line each of the two functions draws: the values of the curve over
    [rel_hours]. *)
Definition plotted_line (curve : Series) : list (Z * float) :=
  combine (rel_hours (length curve)) (values curve).

(** ** Stand-ins for the numpy services, used by the worked examples

    The general theorems hold for every logarithm, solver and bit generator;
    a worked example has to pick one. *)

(** The special cases of [np.log]: [nan] below zero and on [nan], [-inf] at
    zero, [+inf] at [+inf], [0] at [1].  On the other positive numbers this
    stand-in only keeps the sign of the logarithm. *)
Definition ln_special (x : float) : float :=
  if (0 <? x)%float && (x <? infinity)%float
  then (if (x <? 1)%float then (-1)%float
        else if (x =? 1)%float then 0%float else 1%float)
  else if (x =? 0)%float then neg_infinity
  else if (x =? infinity)%float then infinity
  else nan.

(** The closed-form least-squares line through the points, from the normal
    equations. *)
Definition normal_equations (X : list (float * float)) (yv : list float)
  : result (float * float) :=
  let xs := map snd X in
  let n := float_of_nat (length xs) in
  let sx := np_sum xs in
  let sy := np_sum yv in
  let sxx := np_sum (map (fun x => (x * x)%float) xs) in
  let sxy := np_sum (map (fun xy => (fst xy * snd xy)%float) (combine xs yv)) in
  let slope := ((n * sxy - sx * sy) / (n * sxx - sx * sx))%float in
  Ok (((sy - slope * sx) / n)%float, slope).

(** An entropy pool: the state of the process is the count of the words read
    from it, and the word read is a scramble of the count. *)
Definition pool_entropy (p : Z) : Z * Z :=
  ((p * 2862933555777941757 + 3037000493) mod 2 ^ 64, p + 1).

(** A linear congruential generator: the state is the seed, and the [k]-th
    draw of a call is reduced into [low, high). *)
Definition lcg_seed (seed : Z) : Z := seed.

Definition lcg_draw (g low high : Z) (size : nat) : list Z :=
  map (fun k => low + ((g + 1) * 6364136223846793005 * (Z.of_nat k + 1) + 1442695040888963407)
                      mod (high - low))
      (seq 0 size).

(** ** Inputs of the worked examples *)

(** A return history of eleven zeros, one per hour. *)
Definition flat_history : Series :=
  map (fun k => (Z.of_nat k * hour, 0%float)) (seq 0 11).


(** Two observations two hours apart. *)
Definition sparse_returns : Series := [(0, 1%float); (2 * hour, 3%float)].

(** Two observations at the same hour. *)
Definition repeated_hour : Series := [(0, 1%float); (0, 3%float)].

(** Hourly returns with no observation at the anchor hour 0. *)
Definition gap_returns : Series :=
  [(-3 * hour, 0%float); (-2 * hour, 0%float); (-1 * hour, 1%float);
   (1 * hour, 2%float)].

Definition gap_windows : Windows := {| estimation := (-3, -2); event := (-1, 1) |}.

Definition gap_row : EventRow :=
  {| ev_event_id := "e1"; ev_ts_utc := 0; ev_symbol := "ALT" |}.

(** Mean-adjusted model, no resampling. *)
Definition no_boot : ModelCfg :=
  {| benchmark := None; use_bootstrap := false; n_boot := 1000 |}.

(** Price series with a negative, a zero, and only positive prices. *)
Definition prices_neg : Series := [(0, 1%float); (hour, (-1)%float); (2 * hour, 1%float)].
Definition prices_zero : Series := [(0, 1%float); (hour, 0%float); (2 * hour, 1%float)].
Definition prices_pos : Series := [(0, 2%float); (hour, 1%float); (2 * hour, 0.5%float)].

(** Hourly price rows of a symbol, from hour 0 on. *)
Definition mk_rows (sym : string) (cs : list float) : list PriceRow :=
  map (fun kc => {| row_ts := Z.of_nat (fst kc) * hour;
                    row_symbol := sym;
                    row_close := snd kc |})
      (combine (seq 0 (length cs)) cs).

Definition sample_closes : list float :=
  [1; 2; 1; 0.5; 1; 2; 2; 0.5; 1; 1; 2; 0.5]%float.

Definition sample_prices : DataFrame :=
  {| columns := ["symbol"; "open"; "high"; "low"; "close"; "volume"]%string;
     rows := mk_rows "ALT" sample_closes |}.


Definition mk_event (id : string) (k : Z) : EventRow :=
  {| ev_event_id := id; ev_ts_utc := k * hour; ev_symbol := "ALT" |}.

(** Five events of the symbol and one of another symbol. *)
Definition five_events : list EventRow :=
  [mk_event "a" 4; mk_event "b" 5; mk_event "c" 6; mk_event "d" 7;
   mk_event "e" 8;
   {| ev_event_id := "x"; ev_ts_utc := 0; ev_symbol := "OTHER" |}].

Definition short_windows : Windows :=
  {| estimation := (-3, -2); event := (-1, 1) |}.

(** Forty hourly prices, an event at hour 30, an estimation window of 21
    hours and an event window of 5: the history is long enough for the
    resampling estimator to be consulted. *)
Definition long_prices : DataFrame :=
  {| columns := ["symbol"; "open"; "high"; "low"; "close"; "volume"]%string;
     rows := mk_rows "ALT" (concat (repeat [1; 2; 1; 0.5]%float 10)) |}.

Definition long_windows : Windows :=
  {| estimation := (-25, -5); event := (-2, 2) |}.

Definition resampling (n : Z) : ModelCfg :=
  {| benchmark := None; use_bootstrap := true; n_boot := n |}.

(** Twelve points on the line [y = 1 + 2 x]. *)
Definition line_x : Series :=
  map (fun k => (Z.of_nat k * hour, float_of_nat k)) (seq 0 12).
Definition line_y : Series :=
  map (fun k => (Z.of_nat k * hour, (1 + 2 * float_of_nat k)%float)) (seq 0 12).

(** A history that ends in a thirteenth value, and a second last row. *)
Definition last_row_a : Z * float := (11 * hour, 5%float).
Definition last_row_b : Z * float := (11 * hour, (-7)%float).

(** An events file of four rows, out of order, one without timestamp. *)
Definition sample_clock : list (string * Z) :=
  [("2024-03-01 12:00", 474804 * hour); ("2024-03-02 09:00", 474825 * hour);
   ("2024-03-05 18:00", 474906 * hour); ("2024-03-02", 474816 * hour)]%string.

(** A timestamp parser that knows the hours of [sample_clock]: it guesses
    the minute format from a cell of sixteen characters and the date format
    from a cell of ten, and reads a cell in a format only when the cell has
    the length of that format. *)
Definition parse_sample (s : string) : option Z :=
  match find (fun kv => String.eqb (fst kv) s) sample_clock with
  | Some kv => Some (snd kv)
  | None => None
  end.

Definition sample_parser : DatetimeParser :=
  {| guess_format := fun s =>
       if Nat.eqb (String.length s) 16 then Some "%Y-%m-%d %H:%M"%string
       else if Nat.eqb (String.length s) 10 then Some "%Y-%m-%d"%string
       else None;
     strptime := fun fmt s =>
       if String.eqb fmt "%Y-%m-%d %H:%M" && Nat.eqb (String.length s) 16
       then parse_sample s
       else if String.eqb fmt "%Y-%m-%d" && Nat.eqb (String.length s) 10
       then parse_sample s
       else None;
     dateutil_parse := parse_sample |}.

Definition mk_raw (id : string) (ts : option string) (sym : string)
    (dir : option string) : RawEvent :=
  {| raw_event_id := Some id; raw_ts_utc := ts; raw_symbol := Some sym;
     raw_category := Some "listing"%string; raw_headline := Some "headline"%string;
     raw_source := Some "wire"%string; raw_direction := dir |}.

Definition sample_events_csv : EventsCsv :=
  {| csv_columns := REQUIRED_COLS;
     csv_rows :=
       [mk_raw "e3" (Some "2024-03-05 18:00") "ETH-USD" (Some "Positive");
        mk_raw "e4" None "SOL-USD" None;
        mk_raw "e1" (Some "2024-03-01 12:00") "BTC-USD" (Some "NEG");
        mk_raw "e2" (Some "2024-03-02 09:00") "BTC-USD" (Some "bearish")]%string;
     csv_direction_text := true |}.

(** A file whose second timestamp is a date without time of day. *)
Definition mixed_events_csv : EventsCsv :=
  {| csv_columns := REQUIRED_COLS;
     csv_rows :=
       [mk_raw "e1" (Some "2024-03-01 12:00") "BTC-USD" (Some "pos");
        mk_raw "e2" (Some "2024-03-02") "BTC-USD" (Some "neg")]%string;
     csv_direction_text := true |}.

(** A downloaded frame whose timestamps sit in a column called Date, and a
    parser that accepts every column. *)
Definition sample_download : NamedColumns (list string) :=
  [("Date", ["2024-03-01 12:00"; "2024-03-01 13:00"]);
   ("Close", ["1.0"; "2.0"]); ("Volume", ["10"; "20"])]%string.

Definition accept_column (col : list string) : outcome (list string) :=
  Returned col.

(** ** The core

    Three numpy services are taken as given: the logarithm of a float, the
    least-squares solver on a two-column design matrix, and the seeded bit
    generator behind [np.random.default_rng].  [Process] is the state of the
    Python process and of the system under it; [os_entropy] is the one
    operation on it that numpy's generators have: an unseeded generator reads
    fresh entropy from it, which changes it. *)

Section Core.

Set Default Proof Using "Type".

Variable ln : float -> float.
Variable lstsq : list (float * float) -> list float -> result (float * float).
Variable Process : Type.
Variable os_entropy : Process -> Z * Process.
Variable BitGen : Type.
Variable seed_state : Z -> BitGen.
Variable draw : BitGen -> Z -> Z -> nat -> list Z.

(** Proof scripts drop the services a goal does not mention, so that a
    lemma is stated over the ones it needs only. *)
Ltac drop_services :=
  try clear draw; try clear seed_state; try clear BitGen;
  try clear os_entropy; try clear Process; try clear lstsq; try clear ln.

Ltac taut := drop_services; tauto.
Ltac intuit := drop_services; intuition.

(** Computations that may read or write the process state, or raise. *)
Definition M (A : Type) : Type := Process -> result A * Process.

Definition ret {A : Type} (a : A) : M A := fun p => (Ok a, p).
Definition raise {A : Type} (e : exn) : M A := fun p => (Raise e, p).
Definition lift {A : Type} (r : result A) : M A := fun p => (r, p).

Definition mbind {A B : Type} (c : M A) (k : A -> M B) : M B :=
  fun p =>
    match c p with
    | (Ok a, p') => k a p'
    | (Raise e, p') => (Raise e, p')
    end.

Notation "x <~ c ;; k" := (mbind c (fun x => k))
  (at level 61, c at next level, right associativity).

(** *** core/data.py *)

Definition np_log (s : Series) : Series := map_values ln s.

(** [to_returns(prices)] *)
Definition to_returns (prices : Series) : Series :=
  dropna (diff (np_log prices)).

(** *** core/stats.py *)

(** [ols_alpha_beta(x, y)] *)
Definition ols_alpha_beta (x y : Series) : result (float * float) :=
  xy0 <- concat_axis1 x y ;;
  let xy := dropna2 xy0 in
  if len xy <? 10 then Ok (0%float, 0%float)
  else
    let X := map (fun r => (1%float, fst (snd r))) xy in
    let yv := map (fun r => snd (snd r)) xy in
    lstsq X yv.

(** [np.random.default_rng(seed)]: with an integer seed the generator state
    is derived from the seed alone; with [None] it is derived from entropy
    that is read from the process. *)
Definition default_rng (seed : option Z) : M BitGen :=
  match seed with
  | Some n =>
      if n <? 0 then raise (ValueError "expected non-negative integer")
      else ret (seed_state n)
  | None => fun p => let (e, p') := os_entropy p in (Ok (seed_state e), p')
  end.

(** [rng.integers(low, high, size=size)] *)
Definition integers (rng : BitGen) (low high size : Z) : M (list Z) :=
  if size <? 0 then raise (ValueError "negative dimensions are not allowed")
  else if high <=? low then raise (ValueError "low >= high")
  else ret (draw rng low high (Z.to_nat size)).

(** [bootstrap_car_ci(returns, window_len, n_iter, random_state)].  On an
    empty array [np.nanpercentile] returns one [nan] instead of a pair, which
    [low, high = ...] cannot unpack. *)
Definition bootstrap_car_ci (returns : Series)
    (window_len n_iter random_state : Z) : M (float * float) :=
  rng <~ default_rng (Some random_state) ;;
  if len returns <? window_len + 10 then ret (nan, nan)
  else
    starts <~ integers rng 0 (len returns - window_len) n_iter ;;
    let sums :=
      map (fun s => nansum (values (iloc_slice returns s (s + window_len))))
          starts in
    match sums with
    | [] => raise (TypeError "cannot unpack non-iterable numpy.float64 object")
    | _ :: _ => ret (nanpercentile sums 2.5, nanpercentile sums 97.5)
    end.

(** *** core/event_study.py *)

(** [_market_model_ar(target_rets, bench_rets, t0, windows)] *)
Definition _market_model_ar (target_rets : Series) (bench_rets : option Series)
    (t0 : Z) (windows : Windows) : result (Series * float * float) :=
  est0 <- _slice_window target_rets t0 (estimation windows) ;;
  let est := dropna est0 in
  match bench_rets with
  | None =>
      let mu := if 0 <? len est then mean (values est) else 0%float in
      ev <- _slice_window target_rets t0 (event windows) ;;
      Ok (map_values (fun v => (v - mu)%float) ev, mu, 0%float)
  | Some bench =>
      est_b <- _slice_window bench t0 (estimation windows) ;;
      ab <- ols_alpha_beta est_b est ;;
      ev_t <- _slice_window target_rets t0 (event windows) ;;
      ev_b <- _slice_window bench t0 (event windows) ;;
      let fitted := map_values (fun v => (fst ab + snd ab * v)%float) ev_b in
      Ok (series_sub ev_t fitted, fst ab, snd ab)
  end.

(** The body of the loop over the event rows, for a row of the symbol. *)
Definition study_event (sym_ret : Series) (bench_ret : option Series)
    (cfg : ModelCfg) (windows : Windows) (symbol : string) (row : EventRow)
  : M EventResult :=
  let t0 := ev_ts_utc row in
  fit <~ lift (_market_model_ar sym_ret bench_ret t0 windows) ;;
  let ar := fst (fst fit) in
  let car := cumsum ar in
  ci <~ (if use_bootstrap cfg then
           let full_len := len (dropna ar) in
           est0 <~ lift (_slice_window sym_ret t0 (estimation windows)) ;;
           let est_series := dropna est0 in
           if (3 <? full_len) && (full_len + 10 <? len est_series)
           then bootstrap_car_ci est_series full_len (n_boot cfg) 42
           else ret (nan, nan)
         else ret (nan, nan)) ;;
  ret {| event_id := ev_event_id row;
         symbol := symbol;
         t0 := t0;
         ar := ar;
         car := car;
         alpha := snd (fst fit);
         beta := snd fit;
         car_ci := (if notna (fst ci) then fst ci else nan,
                    if notna (snd ci) then snd ci else nan) |}.

(** [for _, row in events.iterrows(): ...], appending to [per_event]. *)
Fixpoint event_loop (sym_ret : Series) (bench_ret : option Series)
    (cfg : ModelCfg) (windows : Windows) (symbol : string)
    (events : list EventRow) (per_event : list EventResult)
  : M (list EventResult) :=
  match events with
  | [] => ret per_event
  | row :: rest =>
      if negb (String.eqb (ev_symbol row) symbol)
      then event_loop sym_ret bench_ret cfg windows symbol rest per_event
      else
        e <~ study_event sym_ret bench_ret cfg windows symbol row ;;
        event_loop sym_ret bench_ret cfg windows symbol rest (per_event ++ [e])
  end.

(** The aggregate confidence band from the events' final CARs. *)
Definition aggregate_ci (per_event : list EventResult) : float * float :=
  let final_cars := filter notna (map final_car per_event) in
  if 5 <=? len final_cars
  then (nanpercentile final_cars 2.5, nanpercentile final_cars 97.5)
  else (nan, nan).

(** [cfg = cfg or ModelCfg()] and [windows = windows or Windows()] *)
Definition cfg_or_default (cfg : option ModelCfg) : ModelCfg :=
  match cfg with
  | Some c => c
  | None => default_cfg
  end.

Definition windows_or_default (windows : option Windows) : Windows :=
  match windows with
  | Some w => w
  | None => default_windows
  end.

(** The benchmark returns: computed only [if cfg.benchmark and bench_prices
    is not None and symbol != cfg.benchmark], and [None] otherwise. *)
Definition benchmark_returns (cfg : ModelCfg) (bench_prices : option DataFrame)
    (symbol : string) : result (option Series) :=
  match benchmark cfg, bench_prices with
  | Some b, Some bp =>
      if truthy (Some b) && negb (String.eqb symbol b)
      then bdf <- ensure_symbol_frame bp b ;; Ok (Some (to_returns (close bdf)))
      else Ok None
  | _, _ => Ok None
  end.

(** The part of [run_event_study] after the loop: the error on an empty
    list, then the mean curves and the aggregate band. *)
Definition aggregate (windows : Windows) (symbol : string)
    (per_event : list EventResult) : result AggregateResult :=
  match per_event with
  | [] => Raise (ValueError ("No events for " ++ symbol))
  | _ :: _ =>
      let aligned_ar :=
        concat_columns (map (fun e => reset_index (ar e)) per_event) in
      mean_ar <- set_index (map mean aligned_ar)
                   (range_index (fst (event windows)) (snd (event windows) + 1)) ;;
      Ok {| mean_ar := mean_ar;
            mean_car := cumsum mean_ar;
            agg_car_ci := aggregate_ci per_event;
            per_event := per_event |}
  end.

(** [run_event_study(prices, events, symbol, bench_prices, cfg, windows)] *)
Definition run_event_study (prices : DataFrame) (events : list EventRow)
    (symbol : string) (bench_prices : option DataFrame)
    (cfg : option ModelCfg) (windows : option Windows) : M AggregateResult :=
  let cfg := cfg_or_default cfg in
  let windows := windows_or_default windows in
  sym_df <~ lift (ensure_symbol_frame prices symbol) ;;
  let sym_ret := to_returns (close sym_df) in
  bench_ret <~ lift (benchmark_returns cfg bench_prices symbol) ;;
  per_event <~ event_loop sym_ret bench_ret cfg windows symbol events [] ;;
  lift (aggregate windows symbol per_event).

(** ** Reference definitions, in the words of the specification *)

(** The last non-missing value of a list, found by one scan. *)
Definition last_defined (vs : list float) : option float :=
  fold_left (fun acc v => if is_nan v then acc else Some v) vs None.

(** The terminal CAR values that are defined, one per contributing event. *)
Definition terminal_cars (per_event : list EventResult) : list float :=
  flat_map (fun e => match last_defined (values (car e)) with
                     | Some v => [v]
                     | None => []
                     end) per_event.

(** The aggregate band: the percentile pair over at least five defined
    terminal CARs, the missing pair otherwise. *)
Definition aggregate_ci_spec (per_event : list EventResult) : float * float :=
  let finals := terminal_cars per_event in
  if 5 <=? len finals
  then (percentile (sort_floats finals) 2.5, percentile (sort_floats finals) 97.5)
  else (nan, nan).

(** The plain average of a list without missing values. *)
Definition average (vs : list float) : float :=
  (np_sum vs / float_of_nat (length vs))%float.

(** The running total of a list: the first value, then each next one added. *)
Definition running_total (vs : list float) : float :=
  match vs with
  | [] => 0%float
  | v :: rest => fold_left PrimFloat.add rest v
  end.

(** The event rows of a symbol: the event table filtered to it. *)
Definition events_for (symbol : string) (events : list EventRow) : list EventRow :=
  filter (fun row => String.eqb (ev_symbol row) symbol) events.

(** The price table carries the columns the aggregator asks for. *)
Definition has_required_columns (df : DataFrame) : bool :=
  has_column df "symbol" && has_column df "open" && has_column df "high"
  && has_column df "low" && has_column df "close".

(** The timestamps of a symbol's rows in a price table. *)
Definition timestamps_of (df : DataFrame) (symbol : string) : list Z :=
  map row_ts (filter (fun r => String.eqb (row_symbol r) symbol) (rows df)).









(** A finite, strictly positive price. *)
Definition positive_price (v : float) : bool :=
  (0 <? v)%float && (v <? infinity)%float.

(** ** Reference definitions for the further properties *)

(** A timestamp on the hourly grid that [asfreq] lays from the least label of
    a series. *)
Definition on_grid (s : Series) (t : Z) : Prop :=
  match index s with
  | [] => False
  | t1 :: ts => (t - index_min t1 ts) mod hour = 0
  end.

(** The contract of [Generator.integers] on a non-empty range: every draw
    lies in [low, high). *)
Definition draws_in_range : Prop :=
  forall g low high n,
    low < high -> Forall (fun s => low <= s < high) (draw g low high n).

(** ** Properties: labels and reindexing *)

Lemma index_equals_eq (l1 l2 : list Z) :
  index_equals l1 l2 = true <-> l1 = l2.
Proof.
  revert l2. induction l1 as [|x r1 IH]; intros [|y r2]; simpl;
    try (split; [discriminate | discriminate]); try taut.
  rewrite andb_true_iff, Z.eqb_eq, IH. split.
  - intros [-> ->]. reflexivity.
  - intros H. injection H as -> ->. auto.
Qed.

Lemma mem_In (t : Z) (l : list Z) : mem t l = true <-> In t l.
Proof.
  induction l as [|x r IH]; simpl.
  - split; [discriminate | taut].
  - rewrite orb_true_iff, Z.eqb_eq, IH. taut.
Qed.

Lemma is_unique_NoDup (l : list Z) : is_unique l = true <-> NoDup l.
Proof.
  induction l as [|x r IH]; simpl.
  - split; [constructor | reflexivity].
  - rewrite andb_true_iff, negb_true_iff, IH. split.
    + intros [Hm Hr]. constructor; [|exact Hr].
      intros Hin. apply mem_In in Hin. congruence.
    + intros H. inversion H as [|? ? Hn Hr]; subst. split; [|exact Hr].
      destruct (mem x r) eqn:E; [|reflexivity].
      apply mem_In in E. contradiction.
Qed.

Lemma get_value_None (s : Series) (t : Z) :
  get_value s t = None <-> ~ In t (index s).
Proof.
  induction s as [|[t' v] r IH]; simpl.
  - taut.
  - destruct (Z.eqb_spec t' t) as [->|Hne].
    + split; [discriminate | intros H; exfalso; apply H; auto].
    + rewrite IH. split; intros H; [intros [?|?]; [congruence | auto] | auto].
Qed.

Lemma get_value_In (s : Series) (t : Z) (v : float) :
  get_value s t = Some v -> In (t, v) s.
Proof.
  induction s as [|[t' v'] r IH]; simpl; [discriminate|].
  destruct (Z.eqb_spec t' t) as [->|Hne].
  - intros H. injection H as ->. auto.
  - auto.
Qed.

Lemma In_get_value (s : Series) (t : Z) (v : float) :
  NoDup (index s) -> In (t, v) s -> get_value s t = Some v.
Proof.
  induction s as [|[t' v'] r IH]; simpl; [taut|].
  intros Hnd [Heq|Hin].
  - injection Heq as -> ->. rewrite Z.eqb_refl. reflexivity.
  - inversion Hnd as [|? ? Hn Hr]; subst.
    destruct (Z.eqb_spec t' t) as [->|Hne].
    + exfalso. apply Hn. change (In (fst (t, v)) (map fst r)).
      apply in_map. exact Hin.
    + apply IH; assumption.
Qed.

Lemma getnan_absent (s : Series) (t : Z) :
  get_value s t = None -> is_nan (getnan s t) = true.
Proof. unfold getnan. intros ->. reflexivity. Qed.

Lemma index_map_labels (f : Z -> float) (l : list Z) :
  index (map (fun t => (t, f t)) l) = l.
Proof.
  unfold index. rewrite map_map. simpl. apply map_id.
Qed.

(** A series with distinct labels is its own reindexing onto its labels. *)
Lemma unique_self_reindex (s : Series) :
  NoDup (index s) -> map (fun t => (t, getnan s t)) (index s) = s.
Proof.
  induction s as [|[t v] r IH]; simpl; [reflexivity|].
  intros Hnd. inversion Hnd as [|? ? Hn Hr]; subst.
  unfold getnan at 1. simpl. rewrite Z.eqb_refl. f_equal.
  rewrite <- (IH Hr) at 2. apply map_ext_in.
  intros t' Hin. unfold getnan. simpl.
  destruct (Z.eqb_spec t t') as [->|Hne]; [contradiction | reflexivity].
Qed.

Lemma reindex_unique (s : Series) (target : list Z) :
  NoDup (index s) ->
  reindex s target = Ok (map (fun t => (t, getnan s t)) target).
Proof.
  intros Hnd. unfold reindex.
  destruct (index_equals (index s) target) eqn:E.
  - apply index_equals_eq in E. subst target.
    rewrite unique_self_reindex by exact Hnd. reflexivity.
  - apply is_unique_NoDup in Hnd. rewrite Hnd. reflexivity.
Qed.

Lemma hour_pos : 0 < hour.
Proof. reflexivity. Qed.

Lemma date_range_length (start stop : Z) :
  start <= stop -> len (date_range start stop) = (stop - start) / hour + 1.
Proof.
  intros H. unfold date_range, len.
  destruct (Z.ltb_spec stop start); [lia|].
  rewrite length_map, length_seq.
  assert (0 <= (stop - start) / hour) by (apply Z.div_pos; [lia | apply hour_pos]).
  lia.
Qed.

Lemma date_range_nth (start stop : Z) (k : nat) :
  start <= stop -> Z.of_nat k <= (stop - start) / hour ->
  nth_error (date_range start stop) k = Some (start + Z.of_nat k * hour).
Proof.
  intros H Hk. unfold date_range.
  destruct (Z.ltb_spec stop start); [lia|].
  rewrite nth_error_map.
  rewrite nth_error_seq.
  destruct (Nat.ltb_spec k (S (Z.to_nat ((stop - start) / hour)))) as [_|Hge].
  - reflexivity.
  - lia.
Qed.

Lemma date_range_NoDup (start stop : Z) : NoDup (date_range start stop).
Proof.
  unfold date_range. destruct (stop <? start); [constructor|].
  apply Injective_map_NoDup; [|apply seq_NoDup].
  intros i j Hij. pose proof hour_pos. nia.
Qed.

(** The hourly window of an anchor: one label per whole hour. *)
Lemma window_index_length (t0 a b : Z) :
  a <= b -> len (date_range (t0 + a * hour) (t0 + b * hour)) = b - a + 1.
Proof.
  intros H. pose proof hour_pos as Hh.
  rewrite date_range_length by nia.
  replace (t0 + b * hour - (t0 + a * hour)) with ((b - a) * hour) by ring.
  rewrite Z.div_mul by lia. reflexivity.
Qed.

Lemma window_index_nth (t0 a b k : Z) :
  0 <= k <= b - a ->
  nth_error (date_range (t0 + a * hour) (t0 + b * hour)) (Z.to_nat k)
  = Some (t0 + (a + k) * hour).
Proof.
  intros H. pose proof hour_pos as Hh.
  rewrite date_range_nth.
  - f_equal. rewrite Z2Nat.id by lia. ring.
  - nia.
  - replace (t0 + b * hour - (t0 + a * hour)) with ((b - a) * hour) by ring.
    rewrite Z.div_mul by lia. lia.
Qed.

(** Reachable timestamps are on the clock, and so are the least and the
    greatest label of a series that holds such timestamps only. *)
Lemma reachable_on_clock (t : Z) : reachable t = true -> on_clock t = true.
Proof.
  unfold reachable, on_clock. pose proof hour_pos.
  rewrite !andb_true_iff, !Z.ltb_lt, !Z.leb_le. lia.
Qed.

Lemma index_min_In (t : Z) (ts : list Z) : In (index_min t ts) (t :: ts).
Proof.
  unfold index_min. induction ts as [|x r IH]; simpl; [auto|].
  destruct (Z.min_spec x (fold_right Z.min t r)) as [[_ ->]|[_ ->]]; [auto|].
  simpl in IH. destruct IH; auto.
Qed.

Lemma index_max_In (t : Z) (ts : list Z) : In (index_max t ts) (t :: ts).
Proof.
  unfold index_max. induction ts as [|x r IH]; simpl; [auto|].
  destruct (Z.max_spec x (fold_right Z.max t r)) as [[_ ->]|[_ ->]]; [|auto].
  simpl in IH. destruct IH; auto.
Qed.

Lemma asfreq_in_range (s : Series) :
  timestamps_in_range (index s) = true ->
  asfreq s = match index s with
             | [] => Ok s
             | t :: ts => reindex s (date_range (index_min t ts) (index_max t ts))
             end.
Proof.
  unfold asfreq, timestamps_in_range. intros H.
  destruct (index s) as [|t ts]; [reflexivity|].
  rewrite forallb_forall in H. unfold pd_date_range.
  rewrite (reachable_on_clock _ (H _ (index_min_In t ts))).
  rewrite (reachable_on_clock _ (H _ (index_max_In t ts))). reflexivity.
Qed.

Lemma slice_window_in_range (s : Series) (t0 : Z) (window : Z * Z) :
  window_in_range t0 window = true ->
  _slice_window s t0 window
  = (s' <- asfreq s ;;
     reindex s' (date_range (t0 + fst window * hour) (t0 + snd window * hour))).
Proof.
  unfold window_in_range, _slice_window. rewrite !andb_true_iff.
  intros [[[Ha Hta] Hb] Htb].
  apply reachable_on_clock in Hta, Htb.
  unfold Timedelta_hours, timestamp_add, pd_date_range.
  destruct (asfreq s) as [s'|e]; [|reflexivity]. simpl.
  rewrite Ha. simpl. rewrite Hta. simpl. rewrite Hb. simpl. rewrite Htb. simpl.
  rewrite Hta, Htb. reflexivity.
Qed.

(** What the slicer went through when it returned. *)
Lemma slice_window_Ok_grid (s out : Series) (t0 : Z) (window : Z * Z) :
  _slice_window s t0 window = Ok out ->
  exists s',
    asfreq s = Ok s' /\
    reindex s' (date_range (t0 + fst window * hour) (t0 + snd window * hour))
    = Ok out.
Proof.
  unfold _slice_window, Timedelta_hours, timestamp_add, pd_date_range. intros H.
  destruct (asfreq s) as [s'|e]; [|discriminate]. simpl in H.
  destruct (on_clock (fst window * hour)); [|discriminate]. simpl in H.
  destruct (on_clock (t0 + fst window * hour)) eqn:Ea; [|discriminate]. simpl in H.
  destruct (on_clock (snd window * hour)); [|discriminate]. simpl in H.
  destruct (on_clock (t0 + snd window * hour)) eqn:Eb; [|discriminate]. simpl in H.
  rewrite Ea, Eb in H. exists s'. split; [reflexivity | exact H].
Qed.

Lemma asfreq_Ok_grid (s s' : Series) :
  asfreq s = Ok s' ->
  match index s with
  | [] => s' = s
  | t :: ts => reindex s (date_range (index_min t ts) (index_max t ts)) = Ok s'
  end.
Proof.
  unfold asfreq, pd_date_range. destruct (index s) as [|t ts].
  - intros H. injection H as <-. reflexivity.
  - destruct (on_clock (index_min t ts) && on_clock (index_max t ts));
      [simpl; auto | discriminate].
Qed.

(** On distinct labels in range [asfreq] succeeds; its result has distinct
    labels and holds a value only where the input holds that value. *)
Lemma asfreq_unique (s : Series) :
  NoDup (index s) ->
  timestamps_in_range (index s) = true ->
  exists s', asfreq s = Ok s' /\ NoDup (index s') /\
    forall t, getnan s' t = getnan s t \/ get_value s' t = None.
Proof.
  intros Hnd Hr. rewrite (asfreq_in_range s Hr).
  destruct (index s) as [|t ts] eqn:E.
  - exists s. rewrite E. repeat split; [constructor | auto].
  - rewrite <- E in Hnd. rewrite reindex_unique by exact Hnd.
    eexists. split; [reflexivity|]. split.
    + rewrite index_map_labels. apply date_range_NoDup.
    + intros t'. set (grid := date_range _ _).
      destruct (in_dec Z.eq_dec t' grid) as [Hin|Hout].
      * left. unfold getnan at 1.
        erewrite In_get_value; [reflexivity | | ].
        -- rewrite index_map_labels. apply date_range_NoDup.
        -- apply in_map_iff. exists t'. auto.
      * right. apply get_value_None. rewrite index_map_labels. exact Hout.
Qed.

Lemma slice_window_unique (s : Series) (t0 : Z) (window : Z * Z) :
  NoDup (index s) ->
  timestamps_in_range (index s) = true ->
  window_in_range t0 window = true ->
  exists s', asfreq s = Ok s' /\
    (forall t, get_value s t = None -> is_nan (getnan s' t) = true) /\
    _slice_window s t0 window
    = Ok (map (fun t => (t, getnan s' t))
              (date_range (t0 + fst window * hour) (t0 + snd window * hour))).
Proof.
  intros Hnd Hr Hw. destruct (asfreq_unique s Hnd Hr) as (s' & Hs' & Hnd' & Hval).
  exists s'. split; [exact Hs'|]. split.
  - intros t Ht. destruct (Hval t) as [Heq|Hnone].
    + rewrite Heq. apply getnan_absent. exact Ht.
    + apply getnan_absent. exact Hnone.
  - rewrite (slice_window_in_range s t0 window Hw), Hs'. simpl.
    apply reindex_unique. exact Hnd'.
Qed.

(** A reindexing that returned onto distinct labels started from distinct
    labels. *)
Lemma reindex_Ok_NoDup (s out : Series) (target : list Z) :
  reindex s target = Ok out -> NoDup target -> NoDup (index s).
Proof.
  unfold reindex. destruct (index_equals (index s) target) eqn:E.
  - intros _ Hnd. apply index_equals_eq in E. rewrite E. exact Hnd.
  - destruct (is_unique (index s)) eqn:Eu; [|discriminate].
    intros _ _. apply is_unique_NoDup. exact Eu.
Qed.

(** When [asfreq] returns, the input had distinct labels, and so has the
    result, which holds a value only where the input holds that value. *)
Lemma asfreq_Ok_unique (s s' : Series) :
  asfreq s = Ok s' ->
  NoDup (index s) /\ NoDup (index s') /\
  forall t, getnan s' t = getnan s t \/ get_value s' t = None.
Proof.
  intros H. pose proof (asfreq_Ok_grid s s' H) as Hg.
  destruct (index s) as [|t ts] eqn:E.
  - subst s'. rewrite E. repeat split; [constructor | constructor | auto].
  - assert (Hnd : NoDup (index s)).
    { eapply reindex_Ok_NoDup; [exact Hg | apply date_range_NoDup]. }
    rewrite <- E. split; [exact Hnd|].
    rewrite (reindex_unique s _ Hnd) in Hg. injection Hg as <-. split.
    + rewrite index_map_labels. apply date_range_NoDup.
    + intros t'. set (grid := date_range _ _).
      destruct (in_dec Z.eq_dec t' grid) as [Hin|Hout].
      * left. unfold getnan at 1.
        erewrite In_get_value; [reflexivity | | ].
        -- rewrite index_map_labels. apply date_range_NoDup.
        -- apply in_map_iff. exists t'. auto.
      * right. apply get_value_None. rewrite index_map_labels. exact Hout.
Qed.

(** The rows of a slice that was returned. *)
Lemma slice_window_Ok_rows (s out : Series) (t0 : Z) (window : Z * Z) :
  _slice_window s t0 window = Ok out ->
  exists s',
    asfreq s = Ok s' /\
    (forall t, get_value s t = None -> is_nan (getnan s' t) = true) /\
    out = map (fun t => (t, getnan s' t))
              (date_range (t0 + fst window * hour) (t0 + snd window * hour)).
Proof.
  intros H. apply slice_window_Ok_grid in H. destruct H as (s' & Hs' & H).
  destruct (asfreq_Ok_unique s s' Hs') as (_ & Hnd' & Hval).
  exists s'. split; [exact Hs'|]. split.
  - intros t Ht. destruct (Hval t) as [Heq|Hnone].
    + rewrite Heq. apply getnan_absent. exact Ht.
    + apply getnan_absent. exact Hnone.
  - rewrite (reindex_unique s' _ Hnd') in H. injection H as <-. reflexivity.
Qed.

(** C1. For every return series, anchor and window with
    [start_offset <= end_offset], a series that the window slicer returns has
    exactly [end_offset - start_offset + 1] rows: row [k] carries the hour
    [t0 + (start_offset + k)] and holds the missing marker whenever the input
    has no observation at that hour.  The slicer returns on every series with
    distinct timestamps and every window, both within the range of pandas'
    clock, however sparse the series is. *)
Theorem slice_window_length (s : Series) (t0 start_offset end_offset : Z) :
  start_offset <= end_offset ->
  (forall out,
      _slice_window s t0 (start_offset, end_offset) = Ok out ->
      len out = end_offset - start_offset + 1 /\
      forall k, 0 <= k <= end_offset - start_offset ->
        exists v,
          nth_error out (Z.to_nat k) = Some (t0 + (start_offset + k) * hour, v) /\
          (get_value s (t0 + (start_offset + k) * hour) = None ->
           is_nan v = true)) /\
  (NoDup (index s) ->
   timestamps_in_range (index s) = true ->
   window_in_range t0 (start_offset, end_offset) = true ->
   exists out, _slice_window s t0 (start_offset, end_offset) = Ok out).
Proof.
  intros Hab. split.
  - intros out Hout. apply slice_window_Ok_rows in Hout.
    destruct Hout as (s' & _ & Hmiss & ->). simpl. split.
    + unfold len. rewrite length_map. apply window_index_length. exact Hab.
    + intros k Hk. eexists. split.
      * rewrite nth_error_map, window_index_nth by exact Hk. reflexivity.
      * apply Hmiss.
  - intros Hnd Hr Hw.
    destruct (slice_window_unique s t0 (start_offset, end_offset) Hnd Hr Hw)
      as (s' & _ & _ & Hout).
    eexists. exact Hout.
Qed.

(** ** Properties: binary64 arithmetic

    Facts of IEEE 754 subtraction, from the specification of the primitive
    floats: a difference of finite numbers is a number, and a difference with
    a missing operand is missing. *)

Lemma spec_float_eq_nan (x : spec_float) : x = S754_nan \/ x <> S754_nan.
Proof. destruct x; auto; right; discriminate. Qed.

Lemma shr_1_nonneg (mrs : shr_record) :
  0 <= shr_m mrs -> 0 <= shr_m (shr_1 mrs).
Proof.
  destruct mrs as [m r s]. simpl.
  destruct m as [|p|p]; simpl; try lia; destruct p; simpl; lia.
Qed.

Lemma iter_shr_1_nonneg (p : positive) (mrs : shr_record) :
  0 <= shr_m mrs -> 0 <= shr_m (iter_pos shr_1 p mrs).
Proof.
  revert mrs. induction p as [p IH|p IH|]; intros mrs H; simpl;
    auto using shr_1_nonneg.
Qed.

Lemma shr_fexp_nonneg (m e : Z) (l : location) :
  0 <= m -> 0 <= shr_m (fst (shr_fexp prec emax m e l)).
Proof.
  intros H. unfold shr_fexp, shr.
  assert (H0 : 0 <= shr_m (shr_record_of_loc m l)).
  { destruct l as [|[| |]]; simpl; exact H. }
  destruct (fexp prec emax (Zdigits2 m + e) - e); simpl; auto.
  apply iter_shr_1_nonneg. exact H0.
Qed.

Lemma round_nearest_even_nonneg (m : Z) (l : location) :
  0 <= m -> 0 <= round_nearest_even m l.
Proof.
  intros H. destruct l as [|[| |]]; simpl; try lia.
  destruct (Z.even m); lia.
Qed.

Lemma binary_round_aux_not_nan (sx : bool) (m e : Z) (l : location) :
  0 <= m -> binary_round_aux prec emax sx m e l <> S754_nan.
Proof.
  intros H. unfold binary_round_aux.
  pose proof (shr_fexp_nonneg m e l H) as H1.
  destruct (shr_fexp prec emax m e l) as [mrs' e']. simpl in H1.
  pose proof (shr_fexp_nonneg _ e' loc_Exact
                (round_nearest_even_nonneg _ (loc_of_shr_record mrs') H1)) as H2.
  destruct (shr_fexp prec emax _ e' loc_Exact) as [mrs'' e'']. simpl in H2.
  destruct (shr_m mrs'') as [|p|p]; try discriminate.
  - destruct (e'' <=? emax - prec); discriminate.
  - lia.
Qed.

Lemma binary_normalize_not_nan (m e : Z) (szero : bool) :
  binary_normalize prec emax m e szero <> S754_nan.
Proof.
  unfold binary_normalize, binary_round.
  destruct m as [|p|p]; try discriminate.
  - destruct (shl_align p e _) as [mz ez]. apply binary_round_aux_not_nan. lia.
  - destruct (shl_align p e _) as [mz ez]. apply binary_round_aux_not_nan. lia.
Qed.

Lemma SFeqb_refl (x : spec_float) : x <> S754_nan -> SFeqb x x = true.
Proof.
  intros H. unfold SFeqb. destruct x as [s|s| |s m e]; simpl.
  - reflexivity.
  - destruct s; reflexivity.
  - contradiction.
  - rewrite Z.compare_refl.
    assert (Hm : Pos.compare_cont Eq m m = Eq) by apply Pos.compare_refl.
    rewrite Hm. destruct s; reflexivity.
Qed.

Lemma is_nan_spec (x : float) :
  is_nan x = false <-> Prim2SF x <> S754_nan.
Proof.
  unfold is_nan. rewrite FloatAxioms.eqb_spec. split.
  - intros H Hn. rewrite Hn in H. discriminate.
  - intros H. rewrite SFeqb_refl by exact H. reflexivity.
Qed.

Lemma is_finite_spec (x : float) :
  is_finite x = true ->
  (exists s, Prim2SF x = S754_zero s) \/ (exists s m e, Prim2SF x = S754_finite s m e).
Proof.
  unfold is_finite, is_infinity, is_nan.
  rewrite !FloatAxioms.eqb_spec, abs_spec.
  destruct (Prim2SF x) as [s|s| |s m e] eqn:E.
  - eauto.
  - destruct s; vm_compute; discriminate.
  - vm_compute. discriminate.
  - eauto 6.
Qed.

Lemma finite_sub_not_nan (x y : float) :
  is_finite x = true -> is_finite y = true -> is_nan (x - y) = false.
Proof.
  intros Hx Hy. apply is_nan_spec. rewrite FloatAxioms.sub_spec. unfold SF64sub.
  destruct (is_finite_spec x Hx) as [[sx ->]|(sx & mx & ex & ->)];
    destruct (is_finite_spec y Hy) as [[sy ->]|(sy & my & ey & ->)]; simpl.
  - destruct sx, sy; discriminate.
  - discriminate.
  - discriminate.
  - apply binary_normalize_not_nan.
Qed.

Lemma is_nan_true (x : float) : is_nan x = true -> Prim2SF x = S754_nan.
Proof.
  intros H. destruct (spec_float_eq_nan (Prim2SF x)) as [E|E]; [exact E|].
  apply is_nan_spec in E. congruence.
Qed.

Lemma nan_sub_l (x y : float) : is_nan x = true -> is_nan (x - y) = true.
Proof.
  intros H. apply is_nan_true in H. unfold is_nan.
  rewrite FloatAxioms.eqb_spec, FloatAxioms.sub_spec, H. reflexivity.
Qed.

Lemma nan_sub_r (x y : float) : is_nan y = true -> is_nan (x - y) = true.
Proof.
  intros H. apply is_nan_true in H. unfold is_nan.
  rewrite FloatAxioms.eqb_spec, FloatAxioms.sub_spec, H.
  destruct (Prim2SF x) as [s|s| |s m e]; reflexivity.
Qed.

(** ** Properties: the return transform *)

Lemma dropna_In (s : Series) (p : Z * float) :
  In p (dropna s) <-> In p s /\ is_nan (snd p) = false.
Proof.
  unfold dropna, notna. rewrite filter_In, negb_true_iff. reflexivity.
Qed.

Lemma dropna_no_nan (s : Series) :
  Forall (fun p => is_nan (snd p) = false) (dropna s).
Proof.
  apply Forall_forall. intros p Hp. apply dropna_In in Hp. taut.
Qed.

Lemma dropna_all (s : Series) :
  Forall (fun p => is_nan (snd p) = false) s -> dropna s = s.
Proof.
  induction 1 as [|p r Hp _ IH]; simpl; [reflexivity|].
  unfold notna. rewrite Hp. simpl. f_equal. exact IH.
Qed.

Lemma dropna_index_incl (s : Series) (t : Z) :
  In t (index (dropna s)) -> In t (index s).
Proof.
  unfold index. rewrite !in_map_iff. intros (p & Hp & Hin).
  apply dropna_In in Hin. exists p. taut.
Qed.

Lemma dropna_NoDup (s : Series) : NoDup (index s) -> NoDup (index (dropna s)).
Proof.
  induction s as [|[t v] r IH]; simpl; [auto|].
  intros H. inversion H as [|? ? Hn Hr]; subst.
  destruct (notna v); simpl; [|auto].
  constructor; [|auto]. intros Hin. apply Hn.
  apply dropna_index_incl. exact Hin.
Qed.

Lemma In_index (s : Series) (t : Z) (v : float) : In (t, v) s -> In t (index s).
Proof. intros H. change t with (fst (t, v)). apply in_map. exact H. Qed.

(** Every row of a difference is the logarithm of a price of that label,
    minus an earlier value. *)
Lemma diff_from_In (prev : float) (s : Series) (t : Z) (d : float) :
  In (t, d) (diff_from prev (np_log s)) ->
  exists v prev', In (t, v) s /\ d = (ln v - prev')%float.
Proof.
  revert prev. induction s as [|[t' v'] r IH]; simpl; [taut|].
  intros prev [Heq|Hin].
  - injection Heq as -> <-. exists v', prev. auto.
  - destruct (IH _ Hin) as (v & prev' & Hv & Hd). exists v, prev'. auto.
Qed.

Lemma diff_from_finite (prev : float) (s : Series) :
  is_finite prev = true ->
  Forall (fun p => is_finite (ln (snd p)) = true) s ->
  Forall (fun p => is_nan (snd p) = false) (diff_from prev (np_log s)).
Proof.
  intros Hprev H. revert prev Hprev.
  induction H as [|[t v] r Hv _ IH]; intros prev Hprev; simpl; constructor.
  - simpl. apply finite_sub_not_nan; assumption.
  - apply IH. exact Hv.
Qed.

Lemma to_returns_cons (t : Z) (v : float) (rest : Series) :
  to_returns ((t, v) :: rest) = dropna (diff_from (ln v) (np_log rest)).
Proof. reflexivity. Qed.

(** C3 (amended). The return transform is total and its output never holds the
    missing marker: a row whose log difference is undefined is dropped.  That
    is the row of a negative price (where [ln] is missing); for a price series
    of finite positive values, where [ln] is finite, nothing but the first row
    is dropped and the output is the first difference of the logarithms. *)
Theorem to_returns_drops_undefined (prices : Series) :
  Forall (fun p => is_nan (snd p) = false) (to_returns prices) /\
  ((forall x, (x <? 0)%float = true -> is_nan (ln x) = true) ->
   NoDup (index prices) ->
   forall t v, In (t, v) prices -> (v <? 0)%float = true ->
               ~ In t (index (to_returns prices))) /\
  ((forall x, positive_price x = true -> is_finite (ln x) = true) ->
   Forall (fun p => positive_price (snd p) = true) prices ->
   to_returns prices = tl (diff (np_log prices))).
Proof.
  split; [apply dropna_no_nan|]. split.
  - intros Hln Hnd t v Hin Hneg Hout.
    unfold index in Hout. apply in_map_iff in Hout.
    destruct Hout as ([t' d] & Ht & Hd). simpl in Ht. subst t'.
    apply dropna_In in Hd. destruct Hd as [Hd Hnan]. simpl in Hnan.
    destruct prices as [|[t1 v1] rest]; [contradiction|].
    simpl in Hd. destruct Hd as [Heq|Hd].
    + injection Heq as _ <-. discriminate.
    + destruct (diff_from_In _ _ _ _ Hd) as (v' & prev' & Hv' & ->).
      assert (v' = v) as ->.
      { pose proof (In_get_value _ _ _ Hnd Hin) as E1.
        pose proof (In_get_value _ _ _ Hnd (or_intror Hv')) as E2.
        congruence. }
      rewrite nan_sub_l in Hnan; [discriminate | auto].
  - intros Hln Hpos. destruct prices as [|[t v] rest]; [reflexivity|].
    rewrite to_returns_cons. simpl. apply dropna_all.
    inversion Hpos as [|? ? Hv Hrest]; subst. simpl in Hv.
    apply diff_from_finite; [auto|].
    eapply Forall_impl; [|exact Hrest]. simpl. auto.
Qed.

(** ** Properties: the process monad *)

Lemma mbind_Ok {A B : Type} (c : M A) (k : A -> M B) (p p' : Process) (b : B) :
  mbind c k p = (Ok b, p') ->
  exists a p1, c p = (Ok a, p1) /\ k a p1 = (Ok b, p').
Proof.
  unfold mbind. destruct (c p) as [[a|e] p1]; [eauto | discriminate].
Qed.

Lemma lift_Ok {A : Type} (r : result A) (p p' : Process) (a : A) :
  lift r p = (Ok a, p') -> r = Ok a /\ p' = p.
Proof. unfold lift. intros H. injection H as -> ->. auto. Qed.

Lemma bind_Ok {A B : Type} (c : result A) (k : A -> result B) (b : B) :
  bind c k = Ok b -> exists a, c = Ok a /\ k a = Ok b.
Proof. destruct c as [a|e]; simpl; [eauto | discriminate]. Qed.

(** ** Properties: cumulative sums *)

Lemma accumulate_nth (vs : list float) (acc : float) (k : nat) :
  (k < length vs)%nat ->
  nth_error (accumulate acc vs) k
  = Some (fold_left PrimFloat.add (firstn (S k) vs) acc).
Proof.
  revert acc k. induction vs as [|v r IH]; intros acc k Hk; simpl in *; [lia|].
  destruct k as [|k]; simpl.
  - reflexivity.
  - rewrite IH by lia. reflexivity.
Qed.

Lemma np_cumsum_nth (vs : list float) (k : nat) :
  (k < length vs)%nat ->
  nth_error (np_cumsum vs) k = Some (running_total (firstn (S k) vs)).
Proof.
  destruct vs as [|v r]; simpl; [lia|]. intros Hk.
  destruct k as [|k]; simpl.
  - reflexivity.
  - rewrite accumulate_nth by lia. reflexivity.
Qed.

Lemma accumulate_length (vs : list float) (acc : float) :
  length (accumulate acc vs) = length vs.
Proof.
  revert acc. induction vs as [|v r IH]; intros acc; simpl; [reflexivity|].
  rewrite IH. reflexivity.
Qed.

Lemma np_cumsum_length (vs : list float) : length (np_cumsum vs) = length vs.
Proof.
  destruct vs as [|v r]; simpl; [reflexivity|].
  rewrite accumulate_length. reflexivity.
Qed.

Lemma cumsum_length (s : Series) : length (cumsum s) = length s.
Proof.
  unfold cumsum, values.
  rewrite length_map, length_combine, np_cumsum_length, !length_map. lia.
Qed.

(** Row [k] of a cumulative sum keeps its label; it is missing where the input
    is missing, and elsewhere it is the running total of the rows so far, the
    missing ones counted as zero. *)
Lemma cumsum_nth (s : Series) (k : nat) (t : Z) (v : float) :
  nth_error s k = Some (t, v) ->
  nth_error (cumsum s) k
  = Some (t, if is_nan v then nan
             else running_total (map fillna0 (values (firstn (S k) s)))).
Proof.
  intros H. unfold cumsum.
  assert (Hk : (k < length s)%nat) by (apply nth_error_Some; congruence).
  rewrite nth_error_map.
  assert (Hc : nth_error (combine s (np_cumsum (map fillna0 (values s)))) k
               = Some ((t, v), running_total (map fillna0 (values (firstn (S k) s))))).
  { unfold values. rewrite <- !firstn_map.
    pose proof (np_cumsum_nth (map fillna0 (map snd s)) k) as Hn.
    rewrite !length_map in Hn. specialize (Hn Hk).
    revert H Hn. generalize (np_cumsum (map fillna0 (map snd s))).
    generalize (running_total (firstn (S k) (map fillna0 (map snd s)))).
    clear Hk. revert k. induction s as [|p r IH]; intros [|k] c l H Hn;
      simpl in *; try discriminate.
    - destruct l; simpl in *; [discriminate|]. congruence.
    - destruct l; simpl in *; [discriminate|]. apply IH; assumption. }
  rewrite Hc. reflexivity.
Qed.

Lemma cumsum_index (s : Series) : index (cumsum s) = index s.
Proof.
  apply nth_error_ext. intros k. unfold index. rewrite !nth_error_map.
  destruct (nth_error s k) as [[t v]|] eqn:E.
  - rewrite (cumsum_nth _ _ _ _ E). reflexivity.
  - apply nth_error_None in E.
    assert (Hn : nth_error (cumsum s) k = None).
    { apply nth_error_None. rewrite cumsum_length. exact E. }
    rewrite Hn. reflexivity.
Qed.

(** ** Properties: the single-event estimator *)

(** What a successful pass of the loop body records. *)
Lemma study_event_Ok (sym_ret : Series) (bench_ret : option Series)
    (cfg : ModelCfg) (windows : Windows) (symbol : string) (row : EventRow)
    (p p' : Process) (e : EventResult) :
  study_event sym_ret bench_ret cfg windows symbol row p = (Ok e, p') ->
  exists fit,
    _market_model_ar sym_ret bench_ret (ev_ts_utc row) windows = Ok fit /\
    ar e = fst (fst fit) /\ alpha e = snd (fst fit) /\ beta e = snd fit /\
    car e = cumsum (ar e) /\
    event_id e = ev_event_id row /\ t0 e = ev_ts_utc row.
Proof.
  unfold study_event. intros H.
  apply mbind_Ok in H. destruct H as (fit & p1 & Hfit & H).
  apply lift_Ok in Hfit. destruct Hfit as [Hfit ->].
  apply mbind_Ok in H. destruct H as (ci & p2 & _ & H).
  unfold ret in H. injection H as <- _.
  exists fit. simpl. auto 10.
Qed.

(** C4 (amended). The CAR an event records is the cumulative sum of its AR
    that skips missing values: hour by hour it keeps the AR's label; it is
    missing at an hour whose AR is missing, and at every other hour it is the
    running total of the ARs so far, the missing ones counted as zero. *)
Theorem car_skips_missing_hours (sym_ret : Series) (bench_ret : option Series)
    (cfg : ModelCfg) (windows : Windows) (symbol : string) (row : EventRow)
    (p p' : Process) (e : EventResult) :
  study_event sym_ret bench_ret cfg windows symbol row p = (Ok e, p') ->
  index (car e) = index (ar e) /\
  forall k t v, nth_error (ar e) k = Some (t, v) ->
    exists c, nth_error (car e) k = Some (t, c) /\
      (is_nan v = true -> is_nan c = true) /\
      (is_nan v = false ->
       c = running_total (map fillna0 (values (firstn (S k) (ar e))))).
Proof.
  intros H. apply study_event_Ok in H.
  destruct H as (fit & _ & _ & _ & _ & Hcar & _).
  rewrite Hcar. split; [apply cumsum_index|].
  intros k t v Hk. eexists. split; [apply cumsum_nth; exact Hk|].
  split; intros Hv; rewrite Hv; reflexivity.
Qed.

Lemma slice_window_Ok (s : Series) (t0 : Z) (window : Z * Z) :
  NoDup (index s) ->
  timestamps_in_range (index s) = true ->
  window_in_range t0 window = true ->
  exists out, _slice_window s t0 window = Ok out /\
    index out = date_range (t0 + fst window * hour) (t0 + snd window * hour).
Proof.
  intros Hnd Hr Hw.
  destruct (slice_window_unique s t0 window Hnd Hr Hw) as (s' & _ & _ & H).
  eexists. split; [exact H|]. apply index_map_labels.
Qed.

Lemma values_dropna (s : Series) : values (dropna s) = filter notna (values s).
Proof.
  induction s as [|[t v] r IH]; simpl; [reflexivity|].
  destruct (notna v); simpl; rewrite IH; reflexivity.
Qed.

Lemma fillna0_defined (vs : list float) :
  Forall (fun v => notna v = true) vs -> map fillna0 vs = vs.
Proof.
  induction 1 as [|v r Hv _ IH]; simpl; [reflexivity|].
  rewrite IH. unfold fillna0. unfold notna in Hv.
  apply negb_true_iff in Hv. rewrite Hv. reflexivity.
Qed.

Lemma filter_notna_defined (vs : list float) :
  Forall (fun v => notna v = true) (filter notna vs).
Proof.
  apply Forall_forall. intros v Hv. apply filter_In in Hv. taut.
Qed.

Lemma filter_all {A : Type} (f : A -> bool) (l : list A) :
  Forall (fun a => f a = true) l -> filter f l = l.
Proof.
  induction 1 as [|a r Ha _ IH]; simpl; [reflexivity|].
  rewrite Ha, IH. reflexivity.
Qed.

(** On a non-empty list without missing values, pandas' mean is the plain
    average. *)
Lemma mean_defined (vs : list float) :
  Forall (fun v => notna v = true) vs -> vs <> [] -> mean vs = average vs.
Proof.
  intros Hall Hne. unfold mean, average, nansum.
  rewrite (filter_all _ _ Hall), (fillna0_defined _ Hall).
  destruct vs as [|v r]; [contradiction | reflexivity].
Qed.

(** The mean-adjusted estimate, when the slicer succeeds. *)
Lemma market_model_mean_adjusted (target est0 ev : Series) (t0 : Z) (w : Windows) :
  _slice_window target t0 (estimation w) = Ok est0 ->
  _slice_window target t0 (event w) = Ok ev ->
  let est := filter notna (values est0) in
  let mu := match est with [] => 0%float | _ :: _ => average est end in
  _market_model_ar target None t0 w
  = Ok (map_values (fun v => (v - mu)%float) ev, mu, 0%float).
Proof.
  intros Hest Hev est mu. unfold _market_model_ar.
  rewrite Hest. simpl. rewrite Hev. simpl.
  assert (Hmu : (if 0 <? len (dropna est0) then mean (values (dropna est0))
                 else 0%float) = mu).
  { unfold mu, est, len. rewrite <- (length_map snd (dropna est0)).
    fold (values (dropna est0)). rewrite values_dropna.
    destruct (filter notna (values est0)) as [|v r] eqn:E; [reflexivity|].
    simpl length. destruct (Z.ltb_spec 0 (Z.of_nat (S (length r)))); [|lia].
    apply mean_defined; [|discriminate].
    rewrite <- E. apply filter_notna_defined. }
  rewrite Hmu. reflexivity.
Qed.

Lemma market_model_None_Ok (target : Series) (t0 : Z) (w : Windows)
    (fit : Series * float * float) :
  _market_model_ar target None t0 w = Ok fit ->
  exists est0 ev,
    _slice_window target t0 (estimation w) = Ok est0 /\
    _slice_window target t0 (event w) = Ok ev /\
    let est := filter notna (values est0) in
    let mu := match est with [] => 0%float | _ :: _ => average est end in
    fit = (map_values (fun v => (v - mu)%float) ev, mu, 0%float).
Proof.
  intros H. pose proof H as H'. unfold _market_model_ar in H'.
  apply bind_Ok in H'. destruct H' as (est0 & Hest & H').
  apply bind_Ok in H'. destruct H' as (ev & Hev & _).
  exists est0, ev. split; [exact Hest|]. split; [exact Hev|].
  rewrite (market_model_mean_adjusted target est0 ev t0 w Hest Hev) in H.
  injection H as <-. reflexivity.
Qed.

(** C9. With no benchmark, whatever the single-event estimator returns for
    an event is this: the abnormal return is the event-window slice of the
    target minus [mu], where [mu] is the average of the non-missing
    estimation-window returns, or [0.0] when there is none; alpha is [mu] and
    beta is [0].  The estimator returns on every return series with distinct
    timestamps and every two windows, all within the range of pandas'
    clock. *)
Theorem mean_adjusted_model (target : Series) (t0 : Z) (w : Windows) :
  (forall fit,
      _market_model_ar target None t0 w = Ok fit ->
      exists est0 ev,
        _slice_window target t0 (estimation w) = Ok est0 /\
        _slice_window target t0 (event w) = Ok ev /\
        let est := filter notna (values est0) in
        let mu := match est with [] => 0%float | _ :: _ => average est end in
        fit = (map_values (fun v => (v - mu)%float) ev, mu, 0%float)) /\
  (NoDup (index target) ->
   timestamps_in_range (index target) = true ->
   window_in_range t0 (estimation w) = true ->
   window_in_range t0 (event w) = true ->
   exists fit, _market_model_ar target None t0 w = Ok fit).
Proof.
  split; [apply market_model_None_Ok|].
  intros Hnd Hr Hwe Hwv.
  destruct (slice_window_Ok target t0 (estimation w) Hnd Hr Hwe) as (est0 & Hest & _).
  destruct (slice_window_Ok target t0 (event w) Hnd Hr Hwv) as (ev & Hev & _).
  eexists. apply market_model_mean_adjusted; eassumption.
Qed.

(** ** Properties: the regression estimator *)

Lemma insert_label_In (t t' : Z) (l : list Z) :
  In t' (insert_label t l) <-> t' = t \/ In t' l.
Proof.
  induction l as [|x r IH]; simpl; [intuit|].
  destruct (Z.ltb_spec t x); simpl; [intuit|].
  destruct (Z.eqb_spec t x) as [->|Hne]; simpl; [intuit|].
  rewrite IH. intuit.
Qed.

Lemma insert_label_sorted (t : Z) (l : list Z) :
  StronglySorted Z.lt l -> StronglySorted Z.lt (insert_label t l).
Proof.
  induction 1 as [|x r Hr IH Hx]; simpl.
  - constructor; constructor.
  - destruct (Z.ltb_spec t x) as [Hlt|Hge].
    + constructor; [constructor; assumption|].
      constructor; [exact Hlt|].
      eapply Forall_impl; [|exact Hx]. simpl. intros. lia.
    + destruct (Z.eqb_spec t x) as [->|Hne]; [constructor; assumption|].
      constructor; [exact IH|].
      apply Forall_forall. intros y Hy. apply insert_label_In in Hy.
      destruct Hy as [->|Hy]; [lia|].
      rewrite Forall_forall in Hx. auto.
Qed.

Lemma sorted_NoDup (l : list Z) : StronglySorted Z.lt l -> NoDup l.
Proof.
  induction 1 as [|x r Hr IH Hx]; constructor; [|exact IH].
  intros Hin. rewrite Forall_forall in Hx. specialize (Hx _ Hin). lia.
Qed.

Lemma sorted_union_sorted (a b : list Z) : StronglySorted Z.lt (sorted_union a b).
Proof.
  unfold sorted_union. induction (a ++ b) as [|x r IH]; simpl.
  - constructor.
  - apply insert_label_sorted. exact IH.
Qed.

Lemma sorted_union_In (a b : list Z) (t : Z) :
  In t (sorted_union a b) <-> In t a \/ In t b.
Proof.
  unfold sorted_union. rewrite <- in_app_iff.
  induction (a ++ b) as [|x r IH]; simpl; [taut|].
  rewrite insert_label_In, IH. intuit.
Qed.

Lemma combine_map_same {A B C : Type} (f : A -> B) (g : A -> C) (l : list A) :
  combine (map f l) (map g l) = map (fun a => (f a, g a)) l.
Proof. induction l as [|a r IH]; simpl; [reflexivity | rewrite IH; reflexivity]. Qed.

Lemma flat_map_singletons {A : Type} (f : A -> list A) (l : list A) :
  (forall a, In a l -> f a = [a]) -> flat_map f l = l.
Proof.
  induction l as [|a r IH]; simpl; [reflexivity|].
  intros H. rewrite (H a (or_introl eq_refl)), IH; [reflexivity|].
  intros b Hb. apply H. auto.
Qed.

Lemma count_occ_NoDup_le (l : list Z) (t : Z) :
  NoDup l -> (count_occ Z.eq_dec l t <= 1)%nat.
Proof.
  intros Hnd. destruct (in_dec Z.eq_dec t l) as [Hin|Hout].
  - rewrite (proj1 (NoDup_count_occ' Z.eq_dec l) Hnd t Hin). lia.
  - rewrite (proj1 (count_occ_not_In Z.eq_dec l t) Hout). lia.
Qed.

(** Of two indexes without repeated label the union repeats none. *)
Lemma union_index_unique (a b : list Z) :
  NoDup a -> NoDup b -> union_index a b = sorted_union a b.
Proof.
  intros Ha Hb. unfold union_index. apply flat_map_singletons.
  intros t Ht. apply sorted_union_In in Ht.
  pose proof (count_occ_NoDup_le a t Ha) as Hca.
  pose proof (count_occ_NoDup_le b t Hb) as Hcb.
  assert (Hone : Nat.max (count_occ Z.eq_dec a t) (count_occ Z.eq_dec b t) = 1%nat).
  { destruct Ht as [Ht|Ht].
    - rewrite (proj1 (NoDup_count_occ' Z.eq_dec a) Ha t Ht). lia.
    - rewrite (proj1 (NoDup_count_occ' Z.eq_dec b) Hb t Ht). lia. }
  rewrite Hone. reflexivity.
Qed.

(** On distinct labels the two columns are joined label by label. *)
Lemma concat_axis1_unique (x y : Series) :
  NoDup (index x) -> NoDup (index y) ->
  exists labels,
    concat_axis1 x y = Ok (map (fun t => (t, (getnan x t, getnan y t))) labels) /\
    NoDup labels /\
    forall t, In t labels <-> In t (index x) \/ In t (index y).
Proof.
  intros Hx Hy. unfold concat_axis1.
  destruct (index_equals (index x) (index y)) eqn:E.
  - apply index_equals_eq in E. exists (index x). split; [|split].
    + f_equal. rewrite <- (unique_self_reindex x Hx) at 1.
      rewrite <- (unique_self_reindex y Hy) at 1. rewrite <- E.
      rewrite combine_map_same, map_map. reflexivity.
    + exact Hx.
    + intros t. rewrite <- E. taut.
  - cbv zeta. rewrite (union_index_unique _ _ Hx Hy).
    rewrite (reindex_unique x _ Hx), (reindex_unique y _ Hy). simpl.
    exists (sorted_union (index x) (index y)). split; [|split].
    + rewrite combine_map_same, map_map. reflexivity.
    + apply sorted_NoDup, sorted_union_sorted.
    + apply sorted_union_In.
Qed.

Lemma NoDup_map_filter {A B : Type} (f : A -> B) (g : A -> bool) (l : list A) :
  NoDup (map f l) -> NoDup (map f (filter g l)).
Proof.
  induction l as [|a r IH]; simpl; [auto|].
  intros H. inversion H as [|? ? Hn Hr]; subst.
  destruct (g a); simpl; [|auto].
  constructor; [|auto]. intros Hin. apply Hn.
  apply in_map_iff in Hin. destruct Hin as (a' & Ha' & Hin).
  apply filter_In in Hin. apply in_map_iff. exists a'. taut.
Qed.

(** C6. On two return series with distinct timestamps, the paired
    observations are the timestamps at which both series hold a non-missing
    value.  With fewer than 10 of them the regression estimator returns
    [(0.0, 0.0)]; otherwise it returns what the least-squares solver finds
    for [y = alpha + beta * x] on the design matrix of rows [(1, x)]. *)
Theorem ols_alpha_beta_threshold (x y : Series) :
  NoDup (index x) -> NoDup (index y) ->
  exists xy : Frame2,
    NoDup (map fst xy) /\
    (forall t vx vy,
        In (t, (vx, vy)) xy <->
        get_value x t = Some vx /\ get_value y t = Some vy /\
        is_nan vx = false /\ is_nan vy = false) /\
    (len xy < 10 -> ols_alpha_beta x y = Ok (0%float, 0%float)) /\
    (10 <= len xy ->
     ols_alpha_beta x y
     = lstsq (map (fun r => (1%float, fst (snd r))) xy)
             (map (fun r => snd (snd r)) xy)).
Proof.
  intros Hx Hy.
  destruct (concat_axis1_unique x y Hx Hy) as (labels & Hcat & Hnd & Hin).
  exists (dropna2 (map (fun t => (t, (getnan x t, getnan y t))) labels)).
  split; [|split; [|split]].
  - apply NoDup_map_filter. rewrite map_map. simpl. rewrite map_id. exact Hnd.
  - intros t vx vy. unfold dropna2, notna.
    rewrite filter_In, in_map_iff, andb_true_iff, !negb_true_iff. simpl.
    split.
    + intros [(t' & Heq & Ht') [Hvx Hvy]]. injection Heq as -> <- <-.
      unfold getnan in *.
      destruct (get_value x t); [|discriminate].
      destruct (get_value y t); [|discriminate]. auto.
    + intros (Ex & Ey & Hvx & Hvy). split; [|auto].
      exists t. unfold getnan. rewrite Ex, Ey. split; [reflexivity|].
      apply Hin. left. eapply In_index, get_value_In, Ex.
  - intros Hlt. unfold ols_alpha_beta. rewrite Hcat. simpl.
    destruct (Z.ltb_spec (len (dropna2 (map (fun t => (t, (getnan x t, getnan y t))) labels))) 10);
      [reflexivity | lia].
  - intros Hge. unfold ols_alpha_beta. rewrite Hcat. simpl.
    destruct (Z.ltb_spec (len (dropna2 (map (fun t => (t, (getnan x t, getnan y t))) labels))) 10);
      [lia | reflexivity].
Qed.

(** ** Properties: the resampling confidence estimator *)

(** The estimator neither reads nor writes the process state. *)
Lemma bootstrap_car_ci_pure (returns : Series) (window_len n_iter random_state : Z)
    (p q : Process) :
  bootstrap_car_ci returns window_len n_iter random_state p
  = (fst (bootstrap_car_ci returns window_len n_iter random_state q), p).
Proof.
  unfold bootstrap_car_ci, mbind, default_rng, integers, raise, ret.
  destruct (random_state <? 0); [reflexivity|].
  destruct (len returns <? window_len + 10); [reflexivity|].
  destruct (n_iter <? 0); [reflexivity|].
  destruct (len returns - window_len <=? 0); [reflexivity|].
  destruct (map _ _); reflexivity.
Qed.



(** ** Properties: the cross-event aggregator *)

Lemma event_loop_Ok (sym_ret : Series) (bench_ret : option Series)
    (cfg : ModelCfg) (w : Windows) (symbol : string) (events : list EventRow)
    (acc out : list EventResult) (p p' : Process) :
  event_loop sym_ret bench_ret cfg w symbol events acc p = (Ok out, p') ->
  exists new,
    out = acc ++ new /\
    Forall2 (fun row e => exists q q',
                 study_event sym_ret bench_ret cfg w symbol row q = (Ok e, q'))
            (events_for symbol events) new.
Proof.
  revert acc p. induction events as [|row rest IH]; intros acc p H; simpl in H.
  - unfold ret in H. injection H as <- _. exists []. rewrite app_nil_r.
    split; [reflexivity | constructor].
  - unfold events_for. simpl.
    destruct (String.eqb (ev_symbol row) symbol); simpl in H.
    + apply mbind_Ok in H. destruct H as (e & p1 & He & H).
      apply IH in H. destruct H as (new & -> & Hall).
      exists (e :: new). rewrite <- app_assoc. split; [reflexivity|].
      constructor; [eauto | exact Hall].
    + apply IH in H. exact H.
Qed.


(** What a successful run went through. *)
Lemma run_event_study_Ok (prices : DataFrame) (events : list EventRow)
    (symbol : string) (bench_prices : option DataFrame)
    (cfg : option ModelCfg) (windows : option Windows)
    (p p' : Process) (agg : AggregateResult) :
  run_event_study prices events symbol bench_prices cfg windows p = (Ok agg, p') ->
  exists sym_df bench_ret,
    ensure_symbol_frame prices symbol = Ok sym_df /\
    benchmark_returns (cfg_or_default cfg) bench_prices symbol = Ok bench_ret /\
    event_loop (to_returns (close sym_df)) bench_ret (cfg_or_default cfg)
               (windows_or_default windows) symbol events [] p
    = (Ok (per_event agg), p') /\
    aggregate (windows_or_default windows) symbol (per_event agg) = Ok agg.
Proof.
  unfold run_event_study. intros H.
  apply mbind_Ok in H. destruct H as (sym_df & p1 & Hsym & H).
  apply lift_Ok in Hsym. destruct Hsym as [Hsym ->].
  apply mbind_Ok in H. destruct H as (bench_ret & p2 & Hb & H).
  apply lift_Ok in Hb. destruct Hb as [Hb ->].
  apply mbind_Ok in H. destruct H as (pe & p3 & Hloop & H).
  apply lift_Ok in H. destruct H as [Hagg ->].
  exists sym_df, bench_ret.
  assert (Hpe : per_event agg = pe).
  { unfold aggregate in Hagg. destruct pe as [|e r]; [discriminate|].
    apply bind_Ok in Hagg. destruct Hagg as (m & _ & Hagg).
    injection Hagg as <-. reflexivity. }
  rewrite Hpe. auto.
Qed.

Lemma aggregate_Ok (w : Windows) (symbol : string) (pe : list EventResult)
    (agg : AggregateResult) :
  aggregate w symbol pe = Ok agg ->
  pe <> [] /\ per_event agg = pe /\ agg_car_ci agg = aggregate_ci pe /\
  mean_car agg = cumsum (mean_ar agg).
Proof.
  unfold aggregate. destruct pe as [|e r]; [discriminate|]. intros H.
  apply bind_Ok in H. destruct H as (m & _ & H). injection H as <-.
  simpl. repeat split. discriminate.
Qed.

Lemma last_cons {A : Type} (l : list A) (x d : A) : last (x :: l) d = last l x.
Proof.
  revert x d. induction l as [|y r IH]; intros x d; [reflexivity|].
  change (last (x :: y :: r) d) with (last (y :: r) d).
  rewrite !IH. reflexivity.
Qed.

(** One scan finds the last row that [dropna] keeps. *)
Lemma last_defined_scan (vs : list float) (acc : option float) :
  fold_left (fun a v => if is_nan v then a else Some v) vs acc
  = match filter notna vs with
    | [] => acc
    | v :: rest => Some (last rest v)
    end.
Proof.
  revert acc. induction vs as [|v r IH]; intros acc; simpl; [reflexivity|].
  rewrite IH. unfold notna. destruct (is_nan v); simpl.
  - reflexivity.
  - destruct (filter (fun v0 => negb (is_nan v0)) r) as [|v' r']; [reflexivity|].
    rewrite last_cons. reflexivity.
Qed.

Lemma last_map {A B : Type} (f : A -> B) (l : list A) (a : A) :
  last (map f l) (f a) = f (last l a).
Proof.
  revert a. induction l as [|x r IH]; intros a; [reflexivity|].
  cbn [map]. rewrite !last_cons. apply IH.
Qed.

Lemma last_In {A : Type} (l : list A) (a : A) : In (last l a) (a :: l).
Proof.
  revert a. induction l as [|x r IH]; intros a; [simpl; auto|].
  rewrite last_cons. right. apply IH.
Qed.

Lemma final_car_terminal (e : EventResult) :
  (if notna (final_car e) then [final_car e] else [])
  = match last_defined (values (car e)) with
    | Some v => [v]
    | None => []
    end.
Proof.
  unfold final_car, last_defined. rewrite last_defined_scan, <- values_dropna.
  destruct (dropna (car e)) as [|p rest] eqn:E; [reflexivity|].
  cbn [values map]. rewrite (last_map snd rest p).
  assert (Hin : In (last rest p) (dropna (car e))).
  { rewrite E. apply last_In. }
  apply dropna_In in Hin. destruct Hin as [_ Hn].
  unfold notna. rewrite Hn. reflexivity.
Qed.

Lemma final_cars_terminal (pe : list EventResult) :
  filter notna (map final_car pe) = terminal_cars pe.
Proof.
  unfold terminal_cars. induction pe as [|e r IH]; simpl; [reflexivity|].
  rewrite <- final_car_terminal, <- IH.
  destruct (notna (final_car e)); reflexivity.
Qed.

Lemma terminal_cars_defined (pe : list EventResult) :
  Forall (fun v => notna v = true) (terminal_cars pe).
Proof.
  rewrite <- final_cars_terminal. apply filter_notna_defined.
Qed.

Lemma aggregate_ci_refines (pe : list EventResult) :
  aggregate_ci pe = aggregate_ci_spec pe.
Proof.
  unfold aggregate_ci, aggregate_ci_spec. rewrite final_cars_terminal.
  destruct (Z.leb_spec 5 (len (terminal_cars pe))) as [H|H]; [|reflexivity].
  unfold nanpercentile. rewrite (filter_all _ _ (terminal_cars_defined pe)).
  destruct (terminal_cars pe) as [|v r]; [unfold len in H; simpl in H; lia|].
  reflexivity.
Qed.

(** C8. In the result of an aggregation run, the per-event results are the
    estimates of the single-event estimator for the events of the symbol, one
    per event in the order of the event table, and the aggregate confidence
    interval is the (2.5th, 97.5th) percentile pair of their defined terminal
    CAR values (the last non-missing CAR of each event that has one) when
    there are at least 5 of them, and [(nan, nan)] when there are fewer. *)
Theorem aggregate_ci_of_terminal_cars (prices : DataFrame)
    (events : list EventRow) (symbol : string) (bench_prices : option DataFrame)
    (cfg : option ModelCfg) (windows : option Windows)
    (p p' : Process) (agg : AggregateResult) :
  run_event_study prices events symbol bench_prices cfg windows p = (Ok agg, p') ->
  (exists sym_df bench_ret,
      ensure_symbol_frame prices symbol = Ok sym_df /\
      benchmark_returns (cfg_or_default cfg) bench_prices symbol = Ok bench_ret /\
      Forall2 (fun row e => exists q q',
                   study_event (to_returns (close sym_df)) bench_ret
                               (cfg_or_default cfg) (windows_or_default windows)
                               symbol row q
                   = (Ok e, q'))
              (events_for symbol events) (per_event agg)) /\
  let finals := terminal_cars (per_event agg) in
  (5 <= len finals ->
   agg_car_ci agg = (percentile (sort_floats finals) 2.5,
                     percentile (sort_floats finals) 97.5)) /\
  (len finals < 5 -> agg_car_ci agg = (nan, nan)).
Proof.
  intros H. apply run_event_study_Ok in H.
  destruct H as (sym_df & bench_ret & Hsym & Hb & Hloop & Hagg).
  split.
  { exists sym_df, bench_ret. split; [exact Hsym|]. split; [exact Hb|].
    apply event_loop_Ok in Hloop. destruct Hloop as (new & Hnew & Hall).
    simpl in Hnew. rewrite Hnew. exact Hall. }
  intros finals.
  apply aggregate_Ok in Hagg. destruct Hagg as (_ & _ & Hci & _).
  rewrite Hci, aggregate_ci_refines. unfold aggregate_ci_spec. fold finals.
  split; intros Hn; destruct (Z.leb_spec 5 (len finals)); try lia; reflexivity.
Qed.

(** ** Properties: when the aggregator returns *)

Lemma index_map_values (f : float -> float) (s : Series) :
  index (map_values f s) = index s.
Proof.
  unfold index, map_values. rewrite map_map. reflexivity.
Qed.

Lemma index_diff_from (prev : float) (s : Series) :
  index (diff_from prev s) = index s.
Proof.
  revert prev. induction s as [|[t v] r IH]; intros prev; simpl; [reflexivity|].
  f_equal. apply IH.
Qed.



Lemma has_required_columns_ensure (df : DataFrame) (symbol : string) :
  has_required_columns df = true ->
  ensure_symbol_frame df symbol
  = Ok {| columns := columns df;
          rows := filter (fun r => String.eqb (row_symbol r) symbol) (rows df) |}.
Proof.
  unfold has_required_columns, ensure_symbol_frame, has_column. simpl.
  rewrite !andb_true_iff. intros [[[[-> ->] ->] ->] ->]. reflexivity.
Qed.

Lemma ensure_symbol_frame_Ok (df sub : DataFrame) (symbol : string) :
  ensure_symbol_frame df symbol = Ok sub ->
  has_required_columns df = true /\
  index (close sub) = timestamps_of df symbol.
Proof.
  unfold ensure_symbol_frame, has_required_columns, has_column. cbn [existsb columns negb].
  destruct (existsb (String.eqb "symbol") (columns df)); cbn [negb andb orb]; [|discriminate].
  destruct (existsb (String.eqb "open") (columns df)); cbn [negb andb orb]; [|discriminate].
  destruct (existsb (String.eqb "high") (columns df)); cbn [negb andb orb]; [|discriminate].
  destruct (existsb (String.eqb "low") (columns df)); cbn [negb andb orb]; [|discriminate].
  destruct (existsb (String.eqb "close") (columns df)); cbn [negb andb orb]; [|discriminate].
  intros H. injection H as <-. split; [reflexivity|].
  unfold close, index, timestamps_of. simpl. rewrite map_map. reflexivity.
Qed.

(** The labels of a window, whatever the order of its bounds. *)
Lemma window_index_count (t0 a b : Z) :
  length (date_range (t0 + a * hour) (t0 + b * hour)) = Z.to_nat (b + 1 - a).
Proof.
  pose proof hour_pos as Hh. destruct (Z.le_gt_cases a b) as [H|H].
  - pose proof (window_index_length t0 a b H) as E. unfold len in E. lia.
  - unfold date_range.
    destruct (Z.ltb_spec (t0 + b * hour) (t0 + a * hour)); [simpl; lia | nia].
Qed.

Lemma series_sub_same_index (left right : Series) :
  index left = index right ->
  index (series_sub left right) = index left.
Proof.
  intros E. unfold series_sub.
  assert (Heq : index_equals (index left) (index right) = true)
    by (apply index_equals_eq; exact E).
  rewrite Heq. clear Heq. unfold index in *. rewrite map_map. simpl.
  revert right E. induction left as [|p r IH]; intros [|q r'] E; simpl in *;
    try discriminate; [reflexivity|].
  injection E as _ E. f_equal. apply IH. exact E.
Qed.

Lemma index_length (s : Series) : length (index s) = length s.
Proof. apply length_map. Qed.

















(** ** Properties: the benchmark fallback *)



(** ** Properties: a flat history at the length threshold *)







(** ** Further properties: the window slicer *)

Lemma reindex_Ok_index (s out : Series) (target : list Z) :
  reindex s target = Ok out -> index out = target.
Proof.
  unfold reindex. destruct (index_equals (index s) target) eqn:E.
  - intros H. injection H as <-. apply index_equals_eq. exact E.
  - destruct (is_unique (index s)); [|discriminate].
    intros H. injection H as <-. apply index_map_labels.
Qed.

Lemma slice_window_Ok_index (s out : Series) (t0 : Z) (window : Z * Z) :
  _slice_window s t0 window = Ok out ->
  index out = date_range (t0 + fst window * hour) (t0 + snd window * hour).
Proof.
  intros H. apply slice_window_Ok_grid in H.
  destruct H as (s' & _ & H). apply reindex_Ok_index in H. exact H.
Qed.

Lemma asfreq_repeated (s : Series) :
  ~ NoDup (index s) -> raises (asfreq s).
Proof.
  intros Hdup. unfold asfreq, pd_date_range.
  destruct (index s) as [|t ts] eqn:E.
  - exfalso. apply Hdup. constructor.
  - destruct (on_clock (index_min t ts) && on_clock (index_max t ts));
      [|eexists; reflexivity].
    simpl. unfold reindex. rewrite E.
    destruct (index_equals (t :: ts) (date_range (index_min t ts) (index_max t ts)))
      eqn:Eq.
    + exfalso. apply Hdup. apply index_equals_eq in Eq. rewrite Eq.
      apply date_range_NoDup.
    + destruct (is_unique (t :: ts)) eqn:Eu; [|eexists; reflexivity].
      exfalso. apply Hdup. apply is_unique_NoDup. exact Eu.
Qed.

Lemma bind_raises {A B : Type} (c : result A) (k : A -> result B) :
  raises c -> raises (x <- c ;; k x).
Proof. intros [e ->]. exists e. reflexivity. Qed.

(** X1. The window slicer raises when a timestamp of the input repeats, and
    when an hour offset of the window or one of its two ends falls off the
    64-bit nanosecond clock; on distinct timestamps and a window in range it
    returns. *)
Theorem slice_window_raises_when (s : Series) (t0 : Z) (window : Z * Z) :
  (~ NoDup (index s) -> raises (_slice_window s t0 window)) /\
  (on_clock (fst window * hour) && on_clock (t0 + fst window * hour)
   && on_clock (snd window * hour) && on_clock (t0 + snd window * hour) = false ->
   raises (_slice_window s t0 window)) /\
  (NoDup (index s) -> timestamps_in_range (index s) = true ->
   window_in_range t0 window = true ->
   ~ raises (_slice_window s t0 window)).
Proof.
  split; [|split].
  - intros Hdup. unfold _slice_window. apply bind_raises.
    apply asfreq_repeated. exact Hdup.
  - intros Hoff. unfold _slice_window, Timedelta_hours, timestamp_add.
    destruct (asfreq s) as [s'|e]; [|exists e; reflexivity]. simpl.
    destruct (on_clock (fst window * hour)); [|eexists; reflexivity]. simpl.
    destruct (on_clock (t0 + fst window * hour)); [|eexists; reflexivity]. simpl.
    destruct (on_clock (snd window * hour)); [|eexists; reflexivity]. simpl.
    destruct (on_clock (t0 + snd window * hour)); [discriminate|].
    eexists. reflexivity.
  - intros Hnd Hr Hw [e He].
    destruct (slice_window_Ok s t0 window Hnd Hr Hw) as (out & Hout & _). congruence.
Qed.

Lemma index_min_le (t1 : Z) (ts : list Z) (t : Z) :
  In t (t1 :: ts) -> index_min t1 ts <= t.
Proof.
  unfold index_min. induction ts as [|x r IH]; simpl.
  - intros [->|[]]. lia.
  - intros [->|[->|H]].
    + specialize (IH (or_introl eq_refl)). lia.
    + lia.
    + specialize (IH (or_intror H)). lia.
Qed.

Lemma index_max_ge (t1 : Z) (ts : list Z) (t : Z) :
  In t (t1 :: ts) -> t <= index_max t1 ts.
Proof.
  unfold index_max. induction ts as [|x r IH]; simpl.
  - intros [->|[]]. lia.
  - intros [->|[->|H]].
    + specialize (IH (or_introl eq_refl)). lia.
    + lia.
    + specialize (IH (or_intror H)). lia.
Qed.

Lemma date_range_In (start stop t : Z) :
  In t (date_range start stop) <->
  start <= t <= stop /\ (t - start) mod hour = 0.
Proof.
  pose proof hour_pos as Hh. unfold date_range. split.
  - destruct (Z.ltb_spec stop start); [intros []|].
    intros Hin. apply in_map_iff in Hin. destruct Hin as (k & <- & Hk).
    apply in_seq in Hk.
    assert (Hq : Z.of_nat k <= (stop - start) / hour).
    { assert (0 <= (stop - start) / hour) by (apply Z.div_pos; lia). lia. }
    assert (Z.of_nat k * hour <= stop - start).
    { pose proof (Z.mul_div_le (stop - start) hour Hh). nia. }
    split; [lia|].
    replace (start + Z.of_nat k * hour - start) with (Z.of_nat k * hour) by ring.
    apply Z.mod_mul. lia.
  - intros [[Hlo Hhi] Hmod].
    destruct (Z.ltb_spec stop start); [lia|].
    apply in_map_iff. exists (Z.to_nat ((t - start) / hour)).
    assert (Hq0 : 0 <= (t - start) / hour) by (apply Z.div_pos; lia).
    assert (Hq1 : (t - start) / hour <= (stop - start) / hour)
      by (apply Z.div_le_mono; lia).
    split.
    + rewrite Z2Nat.id by lia.
      pose proof (Z.div_mod (t - start) hour ltac:(lia)). lia.
    + apply in_seq. lia.
Qed.

Lemma asfreq_grid (s : Series) (t1 : Z) (ts : list Z) :
  NoDup (index s) -> timestamps_in_range (index s) = true ->
  index s = t1 :: ts ->
  asfreq s = Ok (map (fun t => (t, getnan s t))
                     (date_range (index_min t1 ts) (index_max t1 ts))).
Proof.
  intros Hnd Hr E. rewrite (asfreq_in_range s Hr), E.
  apply reindex_unique. exact Hnd.
Qed.

(** X2. On a series with distinct timestamps and a window, both within the
    range of pandas' clock, the slicer's row for an hour of the window holds
    the input's observation at that timestamp when the timestamp lies on the
    hourly grid laid from the series' least timestamp, and the missing marker
    when it lies off that grid, observed or not. *)
Theorem slice_window_value (s : Series) (t0 start_offset end_offset k : Z) :
  NoDup (index s) ->
  timestamps_in_range (index s) = true ->
  window_in_range t0 (start_offset, end_offset) = true ->
  0 <= k <= end_offset - start_offset ->
  exists out v,
    _slice_window s t0 (start_offset, end_offset) = Ok out /\
    nth_error out (Z.to_nat k) = Some (t0 + (start_offset + k) * hour, v) /\
    (forall x, In (t0 + (start_offset + k) * hour, x) s ->
               on_grid s (t0 + (start_offset + k) * hour) -> v = x) /\
    (~ on_grid s (t0 + (start_offset + k) * hour) -> is_nan v = true).
Proof.
  intros Hnd Hr Hw Hk. set (t := t0 + (start_offset + k) * hour).
  destruct (slice_window_unique s t0 (start_offset, end_offset) Hnd Hr Hw)
    as (s' & Has & _ & Hout).
  simpl in Hout. exists (map (fun t => (t, getnan s' t))
    (date_range (t0 + start_offset * hour) (t0 + end_offset * hour))), (getnan s' t).
  split; [exact Hout|]. split.
  { rewrite nth_error_map, window_index_nth by exact Hk. reflexivity. }
  unfold on_grid. destruct (index s) as [|t1 ts] eqn:E; rewrite <- E in Hnd, Hr.
  - unfold asfreq in Has. rewrite E in Has. injection Has as <-.
    split; [intros x _ []|]. intros _. apply getnan_absent.
    apply get_value_None. rewrite E. intros [].
  - rewrite (asfreq_grid s t1 ts Hnd Hr E) in Has. injection Has as <-.
    set (grid := date_range (index_min t1 ts) (index_max t1 ts)).
    split.
    + intros x Hin Hmod.
      assert (Hg : In t grid).
      { apply date_range_In. pose proof (In_index _ _ _ Hin) as Hi. rewrite E in Hi.
        split; [|exact Hmod].
        split; [apply index_min_le | apply index_max_ge]; exact Hi. }
      assert (Hs' : get_value (map (fun t => (t, getnan s t)) grid) t
                    = Some (getnan s t)).
      { apply In_get_value.
        - rewrite index_map_labels. apply date_range_NoDup.
        - apply in_map_iff. exists t. split; [reflexivity | exact Hg]. }
      unfold getnan at 1. rewrite Hs'.
      unfold getnan. rewrite (In_get_value _ _ _ Hnd Hin). reflexivity.
    + intros Hoff. apply getnan_absent. apply get_value_None.
      rewrite index_map_labels. intros Hg. apply date_range_In in Hg.
      apply Hoff. apply Hg.
Qed.

(** ** Further properties: the per-event results of a run *)

Lemma market_model_Ok_index (target : Series) (bench : option Series)
    (t0 : Z) (w : Windows) (fit : Series * float * float) :
  _market_model_ar target bench t0 w = Ok fit ->
  index (fst (fst fit))
  = date_range (t0 + fst (event w) * hour) (t0 + snd (event w) * hour).
Proof.
  destruct bench as [b|].
  - unfold _market_model_ar. intros H.
    apply bind_Ok in H. destruct H as (est0 & _ & H).
    apply bind_Ok in H. destruct H as (est_b & _ & H).
    apply bind_Ok in H. destruct H as (ab & _ & H).
    apply bind_Ok in H. destruct H as (ev_t & Hev_t & H).
    apply bind_Ok in H. destruct H as (ev_b & Hev_b & H).
    injection H as <-. simpl.
    apply slice_window_Ok_index in Hev_t, Hev_b.
    rewrite series_sub_same_index; [exact Hev_t|].
    rewrite index_map_values. congruence.
  - intros H. apply market_model_None_Ok in H.
    destruct H as (est0 & ev & _ & Hev & ->). simpl.
    rewrite index_map_values. apply slice_window_Ok_index in Hev. exact Hev.
Qed.

Lemma study_event_symbol (sym_ret : Series) (bench_ret : option Series)
    (cfg : ModelCfg) (w : Windows) (sym : string) (row : EventRow)
    (p p' : Process) (e : EventResult) :
  study_event sym_ret bench_ret cfg w sym row p = (Ok e, p') -> symbol e = sym.
Proof.
  unfold study_event. intros H.
  apply mbind_Ok in H. destruct H as (fit & p1 & _ & H).
  apply mbind_Ok in H. destruct H as (ci & p2 & _ & H).
  unfold ret in H. injection H as <- _. reflexivity.
Qed.

(** The per-event results of a run, with the event rows they come from. *)
Lemma run_event_study_events (prices : DataFrame) (events : list EventRow)
    (sym : string) (bench_prices : option DataFrame)
    (cfg : option ModelCfg) (windows : option Windows)
    (p p' : Process) (agg : AggregateResult) :
  run_event_study prices events sym bench_prices cfg windows p = (Ok agg, p') ->
  exists sym_df bench_ret,
    ensure_symbol_frame prices sym = Ok sym_df /\
    Forall2 (fun row e => exists q q',
                 study_event (to_returns (close sym_df)) bench_ret
                   (cfg_or_default cfg) (windows_or_default windows) sym row q
                 = (Ok e, q'))
            (events_for sym events) (per_event agg).
Proof.
  intros H. apply run_event_study_Ok in H.
  destruct H as (sym_df & bench_ret & Hsym & _ & Hloop & _).
  exists sym_df, bench_ret. split; [exact Hsym|].
  apply event_loop_Ok in Hloop. destruct Hloop as (new & Hnew & Hall).
  simpl in Hnew. rewrite Hnew. exact Hall.
Qed.

(** X3. In the result of a run, every per-event abnormal-return series is
    labelled with exactly the hours of the event window around its own anchor,
    and its cumulative series carries the same labels: all per-event series
    have the same length, so that rows align across events by position. *)
Theorem per_event_series_labels (prices : DataFrame) (events : list EventRow)
    (sym : string) (bench_prices : option DataFrame)
    (cfg : option ModelCfg) (windows : option Windows)
    (p p' : Process) (agg : AggregateResult) :
  run_event_study prices events sym bench_prices cfg windows p = (Ok agg, p') ->
  let w := windows_or_default windows in
  Forall (fun e =>
            index (ar e) = date_range (t0 e + fst (event w) * hour)
                                      (t0 e + snd (event w) * hour) /\
            index (car e) = index (ar e) /\
            length (ar e) = Z.to_nat (snd (event w) + 1 - fst (event w)))
         (per_event agg).
Proof.
  intros H w. apply run_event_study_events in H.
  destruct H as (sym_df & bench_ret & _ & Hall). fold w in Hall.
  induction Hall as [|row e rows es He _ IH]; constructor; [|exact IH].
  destruct He as (q & q' & He). apply study_event_Ok in He.
  destruct He as (fit & Hfit & Har & _ & _ & Hcar & _ & Ht0).
  apply market_model_Ok_index in Hfit. rewrite <- Har, <- Ht0 in Hfit.
  split; [exact Hfit|]. split; [rewrite Hcar; apply cumsum_index|].
  rewrite <- index_length, Hfit. apply window_index_count.
Qed.

(** X4. The per-event results of a run follow the event table: one result per
    row of the target symbol, in the order of the table, carrying the row's
    identifier and timestamp and the target symbol; rows of other symbols
    leave no trace. *)
Theorem per_event_follows_events (prices : DataFrame) (events : list EventRow)
    (sym : string) (bench_prices : option DataFrame)
    (cfg : option ModelCfg) (windows : option Windows)
    (p p' : Process) (agg : AggregateResult) :
  run_event_study prices events sym bench_prices cfg windows p = (Ok agg, p') ->
  map event_id (per_event agg) = map ev_event_id (events_for sym events) /\
  map t0 (per_event agg) = map ev_ts_utc (events_for sym events) /\
  Forall (fun e => symbol e = sym) (per_event agg).
Proof.
  intros H. apply run_event_study_events in H.
  destruct H as (sym_df & bench_ret & _ & Hall).
  induction Hall as [|row e rows es He _ IH]; simpl; [auto|].
  destruct IH as (IH1 & IH2 & IH3).
  destruct He as (q & q' & He). pose proof (study_event_symbol _ _ _ _ _ _ _ _ _ He) as Hs.
  apply study_event_Ok in He.
  destruct He as (fit & _ & _ & _ & _ & _ & Hid & Ht0).
  rewrite Hid, Ht0, IH1, IH2. auto.
Qed.

(** ** Further properties: the mean curves of a run *)

Lemma index_combine (idx : list Z) (vals : list float) :
  length vals = length idx -> index (combine idx vals) = idx.
Proof.
  unfold index. revert vals. induction idx as [|t r IH]; intros [|v vs] H;
    simpl in *; try discriminate; [reflexivity|].
  f_equal. apply IH. lia.
Qed.

Lemma values_combine (idx : list Z) (vals : list float) :
  length vals = length idx -> values (combine idx vals) = vals.
Proof.
  unfold values. revert vals. induction idx as [|t r IH]; intros [|v vs] H;
    simpl in *; try discriminate; [reflexivity|].
  f_equal. apply IH. lia.
Qed.

Lemma values_reset_index (s : Series) : values (reset_index s) = values s.
Proof.
  unfold reset_index. apply values_combine.
  unfold values. rewrite !length_map, length_seq. reflexivity.
Qed.

(** The mean curve of a returned aggregate, as the code builds it. *)
Lemma aggregate_Ok_mean (w : Windows) (sym : string) (pe : list EventResult)
    (agg : AggregateResult) :
  aggregate w sym pe = Ok agg ->
  let vals := map mean (concat_columns (map (fun e => reset_index (ar e)) pe)) in
  let idx := range_index (fst (event w)) (snd (event w) + 1) in
  length vals = length idx /\
  mean_ar agg = combine idx vals /\
  mean_car agg = cumsum (mean_ar agg).
Proof.
  unfold aggregate. destruct pe as [|e r]; [discriminate|]. intros H.
  apply bind_Ok in H. destruct H as (m & Hm & H). injection H as <-. simpl.
  unfold set_index in Hm.
  match type of Hm with
  | (if Nat.eqb ?a ?b then _ else _) = _ => destruct (Nat.eqb_spec a b) as [E|E]
  end; [|discriminate].
  injection Hm as <-. auto.
Qed.

Lemma range_index_nth (a b k : Z) :
  0 <= k < b - a -> nth_error (range_index a b) (Z.to_nat k) = Some (a + k).
Proof.
  intros H. unfold range_index. rewrite nth_error_map, nth_error_seq.
  destruct (Nat.ltb_spec (Z.to_nat k) (Z.to_nat (b - a))); [|lia].
  simpl. f_equal. lia.
Qed.

(** X5. In the result of a run, the mean AR curve and the mean CAR curve are
    both labelled with the relative hours of the event window, from its start
    to its end in steps of one: row [k] carries the hour [start + k], and the
    curves have [end - start + 1] rows (none when the window is reversed). *)
Theorem mean_curves_relative_hours (prices : DataFrame) (events : list EventRow)
    (sym : string) (bench_prices : option DataFrame)
    (cfg : option ModelCfg) (windows : option Windows)
    (p p' : Process) (agg : AggregateResult) :
  run_event_study prices events sym bench_prices cfg windows p = (Ok agg, p') ->
  let a := fst (event (windows_or_default windows)) in
  let b := snd (event (windows_or_default windows)) in
  index (mean_ar agg) = range_index a (b + 1) /\
  index (mean_car agg) = range_index a (b + 1) /\
  len (mean_ar agg) = Z.max 0 (b - a + 1) /\
  forall k, 0 <= k <= b - a ->
            nth_error (index (mean_ar agg)) (Z.to_nat k) = Some (a + k).
Proof.
  intros H a b. apply run_event_study_Ok in H.
  destruct H as (_ & _ & _ & _ & _ & Hagg).
  apply aggregate_Ok_mean in Hagg. destruct Hagg as (Hlen & Hmean & Hcar).
  fold a b in Hlen, Hmean.
  assert (Hidx : index (mean_ar agg) = range_index a (b + 1)).
  { rewrite Hmean. apply index_combine. exact Hlen. }
  split; [exact Hidx|]. split; [rewrite Hcar, cumsum_index; exact Hidx|].
  split.
  - unfold len. rewrite <- index_length, Hidx. unfold range_index.
    rewrite length_map, length_seq. lia.
  - intros k Hk. rewrite Hidx. apply range_index_nth. lia.
Qed.

(** X6. In the result of a run, row [k] of the mean AR curve is the mean, over
    the per-event results and skipping missing values, of row [k] of each
    event's abnormal-return series: events are averaged position by position,
    an event with a missing hour being left out of that hour's mean. *)
Theorem mean_ar_positional_average (prices : DataFrame) (events : list EventRow)
    (sym : string) (bench_prices : option DataFrame)
    (cfg : option ModelCfg) (windows : option Windows)
    (p p' : Process) (agg : AggregateResult) (k : nat) :
  run_event_study prices events sym bench_prices cfg windows p = (Ok agg, p') ->
  (k < length (mean_ar agg))%nat ->
  nth_error (values (mean_ar agg)) k
  = Some (mean (map (fun e => nth k (values (ar e)) nan) (per_event agg))).
Proof.
  intros H Hk. apply run_event_study_Ok in H.
  destruct H as (_ & _ & _ & _ & _ & Hagg).
  apply aggregate_Ok_mean in Hagg. destruct Hagg as (Hlen & Hmean & _).
  rewrite Hmean in *. rewrite values_combine by exact Hlen.
  rewrite length_combine, <- Hlen, Nat.min_id in Hk.
  unfold concat_columns in *. rewrite !length_map, length_seq in Hk.
  rewrite !nth_error_map, nth_error_seq.
  destruct (Nat.ltb_spec k (fold_right Nat.max 0%nat
             (map (@length _) (map (fun e => reset_index (ar e)) (per_event agg)))));
    [|lia].
  simpl. f_equal. f_equal. rewrite map_map. apply map_ext.
  intros e. rewrite values_reset_index. reflexivity.
Qed.

(** ** Further properties: when no interval is computed *)

Lemma dropna_length (s : Series) : (length (dropna s) <= length s)%nat.
Proof. unfold dropna. apply filter_length_le. Qed.

Lemma Forall2_Forall_r {A B : Type} (R : A -> B -> Prop) (P : B -> Prop)
    (l1 : list A) (l2 : list B) :
  Forall2 R l1 l2 -> (forall a b, R a b -> P b) -> Forall P l2.
Proof.
  intros H HP. induction H as [|a b r1 r2 Hab _ IH]; constructor; eauto.
Qed.

(** The interval an event records, as the loop body computes it. *)
Lemma study_event_ci (sym_ret : Series) (bench_ret : option Series)
    (cfg : ModelCfg) (w : Windows) (sym : string) (row : EventRow)
    (p p' : Process) (e : EventResult) :
  study_event sym_ret bench_ret cfg w sym row p = (Ok e, p') ->
  use_bootstrap cfg = false \/
  (exists est0,
      _slice_window sym_ret (ev_ts_utc row) (estimation w) = Ok est0 /\
      ((3 <? len (dropna (ar e)))
       && (len (dropna (ar e)) + 10 <? len (dropna est0)) = false)) ->
  car_ci e = (nan, nan).
Proof.
  unfold study_event. intros H Hoff.
  apply mbind_Ok in H. destruct H as (fit & p1 & _ & H).
  apply mbind_Ok in H. destruct H as (ci & p2 & Hci & H).
  unfold ret in H. injection H as <- _. simpl in *.
  assert (Hnan : ci = (nan, nan)).
  { destruct Hoff as [Hoff|(est0 & Hest & Hoff)].
    - rewrite Hoff in Hci. unfold ret in Hci. congruence.
    - destruct (use_bootstrap cfg); [|unfold ret in Hci; congruence].
      unfold mbind, lift in Hci. rewrite Hest, Hoff in Hci.
      unfold ret in Hci. congruence. }
  rewrite Hnan. reflexivity.
Qed.

(** X7. In the result of a run, an event records the missing interval
    [(nan, nan)] whenever resampling is switched off, or its abnormal returns
    hold at most 3 non-missing values, or the estimation window is not more
    than 10 hours longer than the count of those values: in none of these
    cases is the resampling estimator consulted. *)
Theorem event_interval_missing (prices : DataFrame) (events : list EventRow)
    (sym : string) (bench_prices : option DataFrame)
    (cfg : option ModelCfg) (windows : option Windows)
    (p p' : Process) (agg : AggregateResult) :
  run_event_study prices events sym bench_prices cfg windows p = (Ok agg, p') ->
  let c := cfg_or_default cfg in
  let w := windows_or_default windows in
  Forall (fun e =>
            use_bootstrap c = false \/
            len (dropna (ar e)) <= 3 \/
            snd (estimation w) - fst (estimation w) + 1 <= len (dropna (ar e)) + 10 ->
            car_ci e = (nan, nan))
         (per_event agg).
Proof.
  intros H c w. apply run_event_study_events in H.
  destruct H as (sym_df & bench_ret & _ & Hall).
  apply (Forall2_Forall_r _ _ _ _ Hall). clear Hall.
  subst c w. intros row e (q & q' & He) Hoff.
  apply (study_event_ci _ _ _ _ _ _ _ _ _ He).
  destruct Hoff as [Hoff|Hoff]; [left; exact Hoff|].
  destruct (use_bootstrap (cfg_or_default cfg)) eqn:Eb; [|left; reflexivity]. right.
  pose proof He as He'. unfold study_event in He'.
  apply mbind_Ok in He'. destruct He' as (fit & p1 & _ & He').
  apply mbind_Ok in He'. destruct He' as (ci & p2 & Hci & _).
  rewrite Eb in Hci. apply mbind_Ok in Hci. destruct Hci as (est0 & p3 & Hest & _).
  apply lift_Ok in Hest. destruct Hest as [Hest _].
  exists est0. split; [exact Hest|].
  destruct Hoff as [Hoff|Hoff].
  - destruct (Z.ltb_spec 3 (len (dropna (ar e)))); [lia | reflexivity].
  - apply andb_false_iff. right. apply Z.ltb_ge.
    pose proof (dropna_length est0) as Hd.
    pose proof (slice_window_Ok_index _ _ _ _ Hest) as Hi.
    pose proof (window_index_count (ev_ts_utc row)
                  (fst (estimation (windows_or_default windows)))
                  (snd (estimation (windows_or_default windows)))) as Hc.
    rewrite <- Hi, index_length in Hc. unfold len in *. lia.
Qed.

(** X8. A run over fewer than five events of the symbol returns the missing
    aggregate interval [(nan, nan)], whatever their abnormal returns are. *)
Theorem few_events_no_aggregate_interval (prices : DataFrame)
    (events : list EventRow) (sym : string) (bench_prices : option DataFrame)
    (cfg : option ModelCfg) (windows : option Windows)
    (p p' : Process) (agg : AggregateResult) :
  run_event_study prices events sym bench_prices cfg windows p = (Ok agg, p') ->
  (length (events_for sym events) < 5)%nat ->
  agg_car_ci agg = (nan, nan).
Proof.
  intros H Hfew. pose proof (run_event_study_events _ _ _ _ _ _ _ _ _ H) as He.
  destruct He as (sym_df & bench_ret & _ & Hall). apply Forall2_length in Hall.
  apply run_event_study_Ok in H. destruct H as (_ & _ & _ & _ & _ & Hagg).
  apply aggregate_Ok in Hagg. destruct Hagg as (_ & _ & Hci & _).
  rewrite Hci. unfold aggregate_ci.
  assert (Hlen : (length (filter notna (map final_car (per_event agg)))
                  <= length (per_event agg))%nat).
  { etransitivity; [apply filter_length_le|]. rewrite length_map. lia. }
  destruct (Z.leb_spec 5 (len (filter notna (map final_car (per_event agg)))));
    [unfold len in *; lia | reflexivity].
Qed.

(** ** Further properties: what a run depends on *)

Lemma event_loop_filtered (sym_ret : Series) (bench_ret : option Series)
    (cfg : ModelCfg) (w : Windows) (sym : string) (events : list EventRow)
    (acc : list EventResult) (p : Process) :
  event_loop sym_ret bench_ret cfg w sym (events_for sym events) acc p
  = event_loop sym_ret bench_ret cfg w sym events acc p.
Proof.
  revert acc p. unfold events_for.
  induction events as [|row rest IH]; intros acc p; simpl; [reflexivity|].
  destruct (String.eqb (ev_symbol row) sym) eqn:E; simpl.
  - rewrite E. simpl. unfold mbind.
    destruct (study_event sym_ret bench_ret cfg w sym row p) as [[e|x] p1];
      [apply IH | reflexivity].
  - apply IH.
Qed.

Lemma ensure_symbol_frame_filtered (df : DataFrame) (sym : string) :
  ensure_symbol_frame
    {| columns := columns df;
       rows := filter (fun r => String.eqb (row_symbol r) sym) (rows df) |} sym
  = ensure_symbol_frame df sym.
Proof.
  unfold ensure_symbol_frame, has_column. simpl.
  assert (Hf : forall l : list PriceRow,
             filter (fun r => String.eqb (row_symbol r) sym)
                    (filter (fun r => String.eqb (row_symbol r) sym) l)
             = filter (fun r => String.eqb (row_symbol r) sym) l).
  { induction l as [|r l IH]; simpl; [reflexivity|].
    destruct (String.eqb (row_symbol r) sym) eqn:E; simpl; [rewrite E, IH|];
      auto. }
  rewrite Hf. reflexivity.
Qed.

(** X9. A run depends on the target symbol's rows only: dropping the events
    of other symbols from the event table, and the rows of other symbols from
    the price table, changes neither its result nor its error. *)
Theorem run_uses_symbol_rows_only (prices : DataFrame) (events : list EventRow)
    (sym : string) (bench_prices : option DataFrame)
    (cfg : option ModelCfg) (windows : option Windows) (p : Process) :
  run_event_study
    {| columns := columns prices;
       rows := filter (fun r => String.eqb (row_symbol r) sym) (rows prices) |}
    (events_for sym events) sym bench_prices cfg windows p
  = run_event_study prices events sym bench_prices cfg windows p.
Proof.
  unfold run_event_study. rewrite ensure_symbol_frame_filtered.
  unfold mbind, lift.
  destruct (ensure_symbol_frame prices sym) as [sym_df|e]; [|reflexivity].
  destruct (benchmark_returns (cfg_or_default cfg) bench_prices sym) as [b|e];
    [|reflexivity].
  rewrite event_loop_filtered. reflexivity.
Qed.

(** ** Further properties: the zero model of the regression estimator *)

Lemma filter_map_length {A B : Type} (f : A -> B) (g : B -> bool) (l : list A) :
  length (filter g (map f l)) = length (filter (fun a => g (f a)) l).
Proof.
  induction l as [|a r IH]; simpl; [reflexivity|].
  destruct (g (f a)); simpl; rewrite IH; reflexivity.
Qed.

Lemma getnan_defined_In (s : Series) (t : Z) :
  notna (getnan s t) = true -> In t (index s).
Proof.
  unfold getnan. destruct (get_value s t) as [v|] eqn:E.
  - intros _. eapply In_index, get_value_In, E.
  - discriminate.
Qed.

(** The paired rows are no more than the rows of either operand. *)
Lemma paired_rows_bound (x y : Series) (labels : list Z) :
  NoDup labels ->
  (length (dropna2 (map (fun t => (t, (getnan x t, getnan y t))) labels))
   <= Nat.min (length x) (length y))%nat.
Proof.
  intros Hnd. unfold dropna2. rewrite filter_map_length. simpl.
  set (kept := filter (fun t => notna (getnan x t) && notna (getnan y t)) labels).
  assert (Hk : NoDup kept) by (apply NoDup_filter; exact Hnd).
  assert (Hx : incl kept (index x)).
  { intros t Ht. apply filter_In in Ht. destruct Ht as [_ Ht].
    apply andb_true_iff in Ht. apply getnan_defined_In. apply Ht. }
  assert (Hy : incl kept (index y)).
  { intros t Ht. apply filter_In in Ht. destruct Ht as [_ Ht].
    apply andb_true_iff in Ht. apply getnan_defined_In. apply Ht. }
  pose proof (NoDup_incl_length Hk Hx) as H1.
  pose proof (NoDup_incl_length Hk Hy) as H2.
  rewrite index_length in H1, H2. lia.
Qed.

Lemma ols_zero_when_short (x y : Series) :
  NoDup (index x) -> NoDup (index y) ->
  len x < 10 \/ len y < 10 ->
  ols_alpha_beta x y = Ok (0%float, 0%float).
Proof.
  intros Hx Hy Hshort.
  destruct (concat_axis1_unique x y Hx Hy) as (labels & Hcat & Hnd & _).
  unfold ols_alpha_beta. rewrite Hcat. simpl.
  pose proof (paired_rows_bound x y labels Hnd) as Hb.
  match goal with |- context [if ?c then _ else _] => destruct c eqn:E end;
    [reflexivity|].
  apply Z.ltb_ge in E. unfold len in *. lia.
Qed.

(** X10. On two series with distinct timestamps of which one has fewer than
    10 rows, the regression estimator returns the zero model [(0.0, 0.0)]
    without consulting the least-squares solver (so also when the solver would
    fail). *)
Theorem ols_short_operand (x y : Series) :
  NoDup (index x) -> NoDup (index y) ->
  len x < 10 \/ len y < 10 ->
  ols_alpha_beta x y = Ok (0%float, 0%float).
Proof.
  intros Hx Hy Hshort. apply ols_zero_when_short; assumption.
Qed.

(** X11. With a benchmark and an estimation window of fewer than 10 hours,
    on series with distinct timestamps and windows within the range of
    pandas' clock, the single-event estimator records [alpha = 0] and
    [beta = 0]: the abnormal return is the target's event-window slice minus
    [0 + 0 * b] for the benchmark return [b] of the same hour. *)
Theorem short_estimation_zero_model (target bench : Series) (t0 : Z) (w : Windows) :
  NoDup (index target) -> NoDup (index bench) ->
  timestamps_in_range (index target) = true ->
  timestamps_in_range (index bench) = true ->
  window_in_range t0 (estimation w) = true ->
  window_in_range t0 (event w) = true ->
  snd (estimation w) - fst (estimation w) + 1 < 10 ->
  exists ev_t ev_b,
    _slice_window target t0 (event w) = Ok ev_t /\
    _slice_window bench t0 (event w) = Ok ev_b /\
    _market_model_ar target (Some bench) t0 w
    = Ok (series_sub ev_t (map_values (fun v => (0 + 0 * v)%float) ev_b),
          0%float, 0%float).
Proof.
  intros Ht Hb Htr Hbr Hwe Hwv Hshort.
  destruct (slice_window_Ok target t0 (estimation w) Ht Htr Hwe) as (est0 & Hest & Hie).
  destruct (slice_window_Ok bench t0 (estimation w) Hb Hbr Hwe) as (est_b & Hestb & Hieb).
  destruct (slice_window_Ok target t0 (event w) Ht Htr Hwv) as (ev_t & Hev & _).
  destruct (slice_window_Ok bench t0 (event w) Hb Hbr Hwv) as (ev_b & Hevb & _).
  exists ev_t, ev_b. split; [exact Hev|]. split; [exact Hevb|].
  assert (Hols : ols_alpha_beta est_b (dropna est0) = Ok (0%float, 0%float)).
  { apply ols_zero_when_short.
    - rewrite Hieb. apply date_range_NoDup.
    - apply dropna_NoDup. rewrite Hie. apply date_range_NoDup.
    - left. unfold len. rewrite <- index_length, Hieb, window_index_count. lia. }
  unfold _market_model_ar. rewrite Hest. simpl. rewrite Hestb. simpl.
  rewrite Hols. simpl. rewrite Hev. simpl. rewrite Hevb. reflexivity.
Qed.

(** ** Further properties: the return transform and the symbol filter *)

Lemma dropna_sorted (s : Series) :
  StronglySorted Z.lt (index s) -> StronglySorted Z.lt (index (dropna s)).
Proof.
  induction s as [|[t v] r IH]; simpl; [auto|].
  intros H. inversion H as [|? ? Hr Ht]; subst.
  destruct (notna v); simpl; [|auto].
  constructor; [auto|].
  apply Forall_forall. intros t' Hin. rewrite Forall_forall in Ht.
  apply Ht. apply dropna_index_incl. exact Hin.
Qed.

(** X12. The return series of a price series has at most one row per price
    after the first: it never carries the first timestamp, every timestamp it
    carries is a later timestamp of the prices, and increasing timestamps stay
    increasing.  In particular an empty or one-row price series gives an empty
    return series. *)
Theorem to_returns_structure (prices : Series) :
  (length (to_returns prices) <= length prices - 1)%nat /\
  (forall t, In t (index (to_returns prices)) -> In t (tl (index prices))) /\
  (StronglySorted Z.lt (index prices) ->
   StronglySorted Z.lt (index (to_returns prices)) /\
   forall t0 rest, index prices = t0 :: rest ->
                   Forall (fun t => t0 < t) (index (to_returns prices))).
Proof.
  destruct prices as [|[t0 v0] rest].
  - simpl. repeat split; auto; try constructor.
  - rewrite to_returns_cons.
    assert (Hi : index (diff_from (ln v0) (np_log rest)) = index rest).
    { rewrite index_diff_from. apply index_map_values. }
    split; [|split].
    + pose proof (dropna_length (diff_from (ln v0) (np_log rest))) as H.
      rewrite <- (index_length (diff_from _ _)), Hi, index_length in H.
      simpl. lia.
    + intros t Ht. apply dropna_index_incl in Ht. rewrite Hi in Ht. exact Ht.
    + intros Hs. simpl in Hs. inversion Hs as [|? ? Hr Ht]; subst. split.
      * apply dropna_sorted. rewrite Hi. exact Hr.
      * intros t1 r1 E. injection E as <- <-.
        apply Forall_forall. intros t Hin. apply dropna_index_incl in Hin.
        rewrite Hi in Hin. rewrite Forall_forall in Ht. auto.
Qed.

(** X13. The symbol filter returns a frame exactly when the table carries the
    symbol, open, high, low and close columns; the frame then has the table's
    columns and the rows of the symbol, in the table's order, and filtering it
    again for the same symbol returns it unchanged. *)
Theorem ensure_symbol_frame_spec (df : DataFrame) (sym : string) :
  (forall sub,
      ensure_symbol_frame df sym = Ok sub <->
      has_required_columns df = true /\
      sub = {| columns := columns df;
               rows := filter (fun r => String.eqb (row_symbol r) sym) (rows df) |}) /\
  (forall sub,
      ensure_symbol_frame df sym = Ok sub ->
      Forall (fun r => row_symbol r = sym) (rows sub) /\
      ensure_symbol_frame sub sym = Ok sub).
Proof.
  assert (Hchar : forall sub,
      ensure_symbol_frame df sym = Ok sub <->
      has_required_columns df = true /\
      sub = {| columns := columns df;
               rows := filter (fun r => String.eqb (row_symbol r) sym) (rows df) |}).
  { intros sub. split.
    - intros H. pose proof (ensure_symbol_frame_Ok _ _ _ H) as [Hc _].
      split; [exact Hc|].
      rewrite (has_required_columns_ensure _ sym Hc) in H. congruence.
    - intros [Hc ->]. apply has_required_columns_ensure. exact Hc. }
  split; [exact Hchar|].
  intros sub H. apply Hchar in H. destruct H as [Hc ->]. split.
  - simpl. apply Forall_forall. intros r Hr. apply filter_In in Hr.
    apply String.eqb_eq. apply Hr.
  - rewrite ensure_symbol_frame_filtered. apply has_required_columns_ensure.
    exact Hc.
Qed.

(** ** Further properties: the resampled windows *)

Lemma iloc_slice_inner {A : Type} (l : list A) (s w : Z) :
  0 <= s -> 0 <= w -> s + w <= len l ->
  iloc_slice l s (s + w) = firstn (Z.to_nat w) (skipn (Z.to_nat s) l).
Proof.
  intros Hs Hw Hlen. unfold iloc_slice, slice_bound.
  destruct (Z.ltb_spec s 0); [lia|].
  destruct (Z.ltb_spec (s + w) 0); [lia|].
  rewrite !Z.min_l by lia. f_equal. lia.
Qed.

Lemma iloc_slice_before_last {A : Type} (h : list A) (x : A) (s w : Z) :
  0 <= s -> 0 <= w -> s + w <= len h ->
  iloc_slice (h ++ [x]) s (s + w) = firstn (Z.to_nat w) (skipn (Z.to_nat s) h).
Proof.
  intros Hs Hw Hlen. unfold len in Hlen.
  rewrite iloc_slice_inner; [|lia|lia|unfold len; rewrite length_app; simpl; lia].
  rewrite skipn_app, firstn_app, length_skipn.
  replace (Z.to_nat w - (length h - Z.to_nat s))%nat with 0%nat by lia.
  replace (Z.to_nat s - length h)%nat with 0%nat by lia.
  simpl. apply app_nil_r.
Qed.

(** X14. When the generator keeps to its range, the resampling estimator never
    looks at the last value of the history: the start positions are drawn
    below [len - window_len], so every window holds exactly [window_len]
    values and ends before the last row.  Two histories that differ in their
    last row only give the same outcome. *)
Theorem bootstrap_ignores_last_row (h : Series) (x y : Z * float)
    (window_len n_iter random_state : Z) (p : Process) :
  draws_in_range ->
  0 <= window_len ->
  bootstrap_car_ci (h ++ [x]) window_len n_iter random_state p
  = bootstrap_car_ci (h ++ [y]) window_len n_iter random_state p /\
  (window_len < len (h ++ [x]) ->
   Forall (fun s => length (iloc_slice (h ++ [x]) s (s + window_len))
                    = Z.to_nat window_len)
          (draw (seed_state random_state) 0 (len (h ++ [x]) - window_len)
                (Z.to_nat n_iter))).
Proof.
  intros Hdraw Hw.
  assert (Hlen : forall z : Z * float, len (h ++ [z]) = len h + 1).
  { intros z. unfold len. rewrite length_app. simpl. lia. }
  assert (Hwin : forall (z : Z * float) s,
             0 <= s < len (h ++ [z]) - window_len ->
             iloc_slice (h ++ [z]) s (s + window_len)
             = firstn (Z.to_nat window_len) (skipn (Z.to_nat s) h)).
  { intros z s Hs. rewrite Hlen in Hs. apply iloc_slice_before_last; lia. }
  split.
  - unfold bootstrap_car_ci, mbind, default_rng, integers, raise, ret.
    rewrite !Hlen.
    destruct (random_state <? 0); [reflexivity|].
    destruct (len h + 1 <? window_len + 10); [reflexivity|].
    destruct (n_iter <? 0); [reflexivity|].
    destruct (Z.leb_spec (len h + 1 - window_len) 0) as [|Hpos]; [reflexivity|].
    assert (Hsums :
      map (fun s => nansum (values (iloc_slice (h ++ [x]) s (s + window_len))))
          (draw (seed_state random_state) 0 (len h + 1 - window_len) (Z.to_nat n_iter))
      = map (fun s => nansum (values (iloc_slice (h ++ [y]) s (s + window_len))))
            (draw (seed_state random_state) 0 (len h + 1 - window_len) (Z.to_nat n_iter))).
    { apply map_ext_in. intros s Hs.
      pose proof (Hdraw (seed_state random_state) 0 (len h + 1 - window_len)
                        (Z.to_nat n_iter) Hpos) as Hr.
      rewrite Forall_forall in Hr. specialize (Hr s Hs).
      rewrite !Hwin by (rewrite Hlen; exact Hr). reflexivity. }
    rewrite Hsums. reflexivity.
  - intros Hlt. eapply Forall_impl; [|apply Hdraw; lia]. simpl. intros s Hs.
    rewrite Hwin by exact Hs.
    rewrite Hlen in Hs. rewrite length_firstn, length_skipn. unfold len in Hs. lia.
Qed.

Lemma rel_hours_length (n : nat) : length (rel_hours n) = n.
Proof. unfold rel_hours. rewrite length_map, length_seq. reflexivity. Qed.

Lemma plotted_line_axis (curve : Series) :
  map fst (plotted_line curve) = rel_hours (length curve).
Proof.
  unfold plotted_line. apply (index_combine (rel_hours (length curve)) (values curve)).
  unfold values. rewrite length_map, rel_hours_length. reflexivity.
Qed.

Lemma rel_hours_range_index (a : Z) (n : nat) :
  rel_hours n = map (fun k => a + Z.of_nat k) (seq 0 n) <->
  n = 0%nat \/ a = - (Z.of_nat n / 2).
Proof.
  unfold rel_hours. split.
  - destruct n as [|m]; [auto|]. intros H. right.
    change (seq 0 (S m)) with (0%nat :: seq 1 m) in H. simpl map in H.
    injection H as H _. lia.
  - intros [->| ->]; [reflexivity|]. apply map_ext. intros i. lia.
Qed.

(** X20. The plots draw a curve of [n] rows against the hours
    [-(n / 2), ..., n - 1 - n / 2].  For the mean curve of a run these are the
    curve's own relative-hour labels exactly when the event window is empty or
    starts at minus half its length (rounded down): a window such as
    [(-24, 24)] is drawn at its hours, any other is drawn shifted. *)
Theorem plot_axis_matches_window (prices : DataFrame) (events : list EventRow)
    (sym : string) (bench_prices : option DataFrame)
    (cfg : option ModelCfg) (windows : option Windows)
    (p p' : Process) (agg : AggregateResult) :
  run_event_study prices events sym bench_prices cfg windows p = (Ok agg, p') ->
  let a := fst (event (windows_or_default windows)) in
  let b := snd (event (windows_or_default windows)) in
  (map fst (plotted_line (mean_ar agg)) = index (mean_ar agg) <->
   b < a \/ a = - ((b - a + 1) / 2)) /\
  (map fst (plotted_line (mean_car agg)) = index (mean_car agg) <->
   b < a \/ a = - ((b - a + 1) / 2)).
Proof.
  intros H a b. apply run_event_study_Ok in H.
  destruct H as (_ & _ & _ & _ & _ & Hagg).
  apply aggregate_Ok_mean in Hagg. destruct Hagg as (Hlen & Hmean & Hcar).
  fold a b in Hlen, Hmean.
  assert (Hidx : index (mean_ar agg) = range_index a (b + 1)).
  { rewrite Hmean. apply index_combine. exact Hlen. }
  assert (Hn : length (mean_ar agg) = Z.to_nat (b + 1 - a)).
  { rewrite <- index_length, Hidx. unfold range_index.
    rewrite length_map, length_seq. reflexivity. }
  assert (Hiff : rel_hours (length (mean_ar agg)) = range_index a (b + 1) <->
                 b < a \/ a = - ((b - a + 1) / 2)).
  { unfold range_index. rewrite Hn, rel_hours_range_index. split.
    - intros [E|E]; [left; lia|].
      destruct (Z.ltb_spec b a); [left; assumption|right].
      rewrite Z2Nat.id in E by lia.
      replace (b - a + 1) with (b + 1 - a) by lia. exact E.
    - intros [E|E]; [left; lia|].
      destruct (Z.ltb_spec b a); [left; lia|right].
      rewrite Z2Nat.id by lia.
      replace (b + 1 - a) with (b - a + 1) by lia. exact E. }
  split.
  - rewrite plotted_line_axis, Hidx. exact Hiff.
  - rewrite plotted_line_axis, Hcar, cumsum_index, Hidx.
    replace (length (cumsum (mean_ar agg))) with (length (mean_ar agg));
      [exact Hiff|].
    rewrite <- (index_length (cumsum (mean_ar agg))), cumsum_index.
    symmetry. apply index_length.
Qed.
End Core.

(** ** Properties: the estimator and the process it runs in *)

(** C7. The resampling confidence estimator consults no state of the
    process: for a fixed history, window length, iteration count and seed,
    two invocations return the same outcome whatever the processes they run
    in, the states these are in and the entropy an unseeded generator would
    read from them, and each invocation leaves its process as it found it. *)
Theorem bootstrap_deterministic
    (Process1 Process2 : Type)
    (os_entropy1 : Process1 -> Z * Process1)
    (os_entropy2 : Process2 -> Z * Process2)
    (BitGen : Type) (seed_state : Z -> BitGen)
    (draw : BitGen -> Z -> Z -> nat -> list Z)
    (returns : Series) (window_len n_iter random_state : Z)
    (p1 : Process1) (p2 : Process2) :
  fst (bootstrap_car_ci Process1 os_entropy1 BitGen seed_state draw
         returns window_len n_iter random_state p1)
  = fst (bootstrap_car_ci Process2 os_entropy2 BitGen seed_state draw
           returns window_len n_iter random_state p2) /\
  snd (bootstrap_car_ci Process1 os_entropy1 BitGen seed_state draw
         returns window_len n_iter random_state p1) = p1 /\
  snd (bootstrap_car_ci Process2 os_entropy2 BitGen seed_state draw
         returns window_len n_iter random_state p2) = p2.
Proof.
  unfold bootstrap_car_ci, mbind, default_rng, integers, raise, ret.
  destruct (random_state <? 0); [repeat split|].
  destruct (len returns <? window_len + 10); [repeat split|].
  destruct (n_iter <? 0); [repeat split|].
  destruct (len returns - window_len <=? 0); [repeat split|].
  destruct (map _ _); repeat split.
Qed.

(** ** Worked examples

    The theorems above, applied to concrete inputs, with the stand-ins for
    the numpy services. *)

Lemma negative_cases (x : float) :
  (x <? 0)%float = true ->
  (0 <? x)%float = false /\ (x =? 0)%float = false /\ (x =? infinity)%float = false.
Proof.
  rewrite !FloatAxioms.ltb_spec, !FloatAxioms.eqb_spec.
  change (Prim2SF 0) with (S754_zero false).
  change (Prim2SF infinity) with (S754_infinity false).
  unfold SFltb, SFeqb.
  destruct (Prim2SF x) as [s|s| |s m e]; simpl; try discriminate;
    destruct s; simpl; try discriminate; auto.
Qed.

Lemma ln_special_negative (x : float) :
  (x <? 0)%float = true -> is_nan (ln_special x) = true.
Proof.
  intros H. destruct (negative_cases x H) as (H1 & H2 & H3).
  unfold ln_special. rewrite H1, H2, H3. reflexivity.
Qed.

Lemma ln_special_finite (x : float) :
  positive_price x = true -> is_finite (ln_special x) = true.
Proof.
  unfold positive_price, ln_special. intros ->.
  destruct (x <? 1)%float; [reflexivity|].
  destruct (x =? 1)%float; reflexivity.
Qed.

(** The slicer on two observations two hours apart: five rows, the three
    hours without observation marked missing. *)
Example slice_window_sparse :
  _slice_window sparse_returns 0 (-1, 3)
  = Ok [(-1 * hour, nan); (0, 1%float); (1 * hour, nan); (2 * hour, 3%float);
        (3 * hour, nan)].
Proof. reflexivity. Qed.

(** A timestamp that repeats is refused by the reindexing. *)
Example slice_window_repeated_hour :
  _slice_window repeated_hour 0 (-1, 3)
  = Raise (ValueError "cannot reindex on an axis with duplicate labels").
Proof. reflexivity. Qed.

Lemma slice_window_length_witness :
  exists out,
    _slice_window sparse_returns 0 (-1, 3) = Ok out /\
    len out = 3 - -1 + 1 /\
    forall k, 0 <= k <= 3 - -1 ->
      exists v,
        nth_error out (Z.to_nat k) = Some (0 + (-1 + k) * hour, v) /\
        (get_value sparse_returns (0 + (-1 + k) * hour) = None -> is_nan v = true).
Proof.
  destruct (slice_window_length sparse_returns 0 (-1) 3 ltac:(lia)) as [Hrows Hret].
  destruct Hret as (out & Hout).
  - apply is_unique_NoDup. reflexivity.
  - reflexivity.
  - reflexivity.
  - exists out. split; [exact Hout | exact (Hrows out Hout)].
Defined.




(** An unseeded generator depends on the state of the process and changes it;
    the resampling estimator, which seeds its generator, does neither. *)
Example unseeded_generator_reads_process :
  fst (default_rng Z pool_entropy Z lcg_seed None 0)
  <> fst (default_rng Z pool_entropy Z lcg_seed None 1) /\
  snd (default_rng Z pool_entropy Z lcg_seed None 0) <> 0.
Proof. split; vm_compute; discriminate. Qed.

(** C3, as stated, fails on a non-positive price: around a negative price the
    rows are dropped, so the output holds no missing marker (here it is
    empty); around a zero price the output holds the two infinities. *)
Lemma to_returns_marker_counterexample :
  In (hour, (-1)%float) prices_neg /\ ((-1) <=? 0)%float = true /\
  to_returns ln_special prices_neg = [] /\
  In (hour, 0%float) prices_zero /\ (0 <=? 0)%float = true /\
  to_returns ln_special prices_zero = [(hour, neg_infinity); (2 * hour, infinity)].
Proof.
  repeat split; try reflexivity; simpl; auto.
Qed.

Lemma to_returns_drops_undefined_witness :
  Forall (fun p => is_nan (snd p) = false) (to_returns ln_special prices_zero) /\
  ~ In hour (index (to_returns ln_special prices_neg)) /\
  to_returns ln_special prices_pos = tl (diff (np_log ln_special prices_pos)).
Proof.
  split; [|split].
  - apply (proj1 (to_returns_drops_undefined ln_special prices_zero)).
  - apply (proj1 (proj2 (to_returns_drops_undefined ln_special prices_neg))
             ln_special_negative) with (v := (-1)%float).
    + apply is_unique_NoDup. reflexivity.
    + simpl. auto.
    + reflexivity.
  - apply (proj2 (proj2 (to_returns_drops_undefined ln_special prices_pos))
             ln_special_finite).
    repeat constructor.
Defined.

(** C4, as stated, fails after a gap: the series has no observation at the
    anchor hour, so the AR of that hour is missing; the CAR is missing at that
    hour only, and one hour later it is [1 + 2 = 3]. *)
Lemma car_after_gap_counterexample :
  fst (study_event normal_equations Z pool_entropy Z lcg_seed lcg_draw
         gap_returns None no_boot gap_windows "ALT" gap_row 0)
  = Ok {| event_id := "e1"; symbol := "ALT"; t0 := 0;
          ar := [(-1 * hour, 1%float); (0, nan); (1 * hour, 2%float)];
          car := [(-1 * hour, 1%float); (0, nan); (1 * hour, 3%float)];
          alpha := 0%float; beta := 0%float; car_ci := (nan, nan) |} /\
  is_nan nan = true /\ is_nan 3 = false.
Proof. repeat split; reflexivity. Qed.

Lemma car_skips_missing_hours_witness :
  match study_event normal_equations Z pool_entropy Z lcg_seed lcg_draw
          gap_returns None no_boot gap_windows "ALT" gap_row 0 with
  | (Ok e, _) =>
      index (car e) = index (ar e) /\
      forall k t v, nth_error (ar e) k = Some (t, v) ->
        exists c, nth_error (car e) k = Some (t, c) /\
          (is_nan v = true -> is_nan c = true) /\
          (is_nan v = false ->
           c = running_total (map fillna0 (values (firstn (S k) (ar e)))))
  | (Raise _, _) => False
  end.
Proof.
  destruct (study_event normal_equations Z pool_entropy Z lcg_seed lcg_draw
              gap_returns None no_boot gap_windows "ALT" gap_row 0)
    as [[e|x] p'] eqn:E.
  - exact (car_skips_missing_hours normal_equations Z pool_entropy Z lcg_seed lcg_draw
             gap_returns None no_boot gap_windows "ALT" gap_row 0 p' e E).
  - vm_compute in E. discriminate.
Defined.



(** A run that consults the resampling estimator: with twenty iterations
    the event records an interval, and with none the run raises. *)
Example run_resampled_interval :
  match fst (run_event_study ln_special normal_equations Z pool_entropy Z lcg_seed
               lcg_draw long_prices [mk_event "a" 30] "ALT" None
               (Some (resampling 20)) (Some long_windows) 0) with
  | Ok agg => map car_ci (per_event agg) = [((-1)%float, 1%float)]
  | Raise _ => False
  end.
Proof. vm_compute. reflexivity. Qed.

Example run_zero_iterations_raises :
  exists msg,
    fst (run_event_study ln_special normal_equations Z pool_entropy Z lcg_seed lcg_draw
           long_prices [mk_event "a" 30] "ALT" None (Some (resampling 0))
           (Some long_windows) 0)
    = Raise (TypeError msg).
Proof. eexists. vm_compute. reflexivity. Qed.

(** A window three million hours long is no duration of the clock. *)
Example run_far_window_raises :
  exists msg,
    fst (run_event_study ln_special normal_equations Z pool_entropy Z lcg_seed lcg_draw
           sample_prices five_events "ALT" None (Some no_boot)
           (Some {| estimation := (-3, -2); event := (3000000, 3000001) |}) 0)
    = Raise (OutOfBoundsTimedelta msg).
Proof. eexists. vm_compute. reflexivity. Qed.



(** The regression estimator on twelve points of a line recovers the line;
    on the first nine of them it returns the zero model. *)
Example ols_recovers_line :
  ols_alpha_beta normal_equations line_x line_y = Ok (1%float, 2%float).
Proof. reflexivity. Qed.

Example ols_too_few_pairs :
  ols_alpha_beta normal_equations (firstn 9 line_x) line_y = Ok (0%float, 0%float).
Proof. reflexivity. Qed.

Lemma ols_alpha_beta_threshold_witness :
  exists xy : Frame2,
    NoDup (map fst xy) /\
    (forall t vx vy,
        In (t, (vx, vy)) xy <->
        get_value (firstn 9 line_x) t = Some vx /\ get_value line_y t = Some vy /\
        is_nan vx = false /\ is_nan vy = false) /\
    (len xy < 10 ->
     ols_alpha_beta normal_equations (firstn 9 line_x) line_y = Ok (0%float, 0%float)) /\
    (10 <= len xy ->
     ols_alpha_beta normal_equations (firstn 9 line_x) line_y
     = normal_equations (map (fun r => (1%float, fst (snd r))) xy)
                        (map (fun r => snd (snd r)) xy)).
Proof.
  apply (ols_alpha_beta_threshold normal_equations (firstn 9 line_x) line_y).
  - apply is_unique_NoDup. reflexivity.
  - apply is_unique_NoDup. reflexivity.
Defined.

(** The aggregate band of the five sample events: their final CARs are
    1, 5, -1, -4 and -2.5, and the band is the pair of floats nearest to
    -3.85 and 4.6. *)
Example aggregate_band_of_five :
  match fst (run_event_study ln_special normal_equations Z pool_entropy Z lcg_seed lcg_draw
               sample_prices five_events "ALT" None (Some no_boot)
               (Some short_windows) 0) with
  | Ok agg => terminal_cars (per_event agg) = [1; 5; -1; -4; -2.5]%float /\
              agg_car_ci agg = ((-0x1.ecccccccccccdp+1)%float, 0x1.2666666666666p+2%float)
  | Raise _ => False
  end.
Proof. vm_compute. split; reflexivity. Qed.

Lemma aggregate_ci_of_terminal_cars_witness :
  match run_event_study ln_special normal_equations Z pool_entropy Z lcg_seed lcg_draw
          sample_prices five_events "ALT" None (Some no_boot)
          (Some short_windows) 0 with
  | (Ok agg, _) =>
      (exists sym_df bench_ret,
          ensure_symbol_frame sample_prices "ALT" = Ok sym_df /\
          benchmark_returns ln_special no_boot None "ALT" = Ok bench_ret /\
          Forall2 (fun row e => exists q q',
                       study_event normal_equations Z pool_entropy Z lcg_seed lcg_draw
                                   (to_returns ln_special (close sym_df)) bench_ret
                                   no_boot short_windows "ALT" row q
                       = (Ok e, q'))
                  (events_for "ALT" five_events) (per_event agg)) /\
      let finals := terminal_cars (per_event agg) in
      (5 <= len finals ->
       agg_car_ci agg = (percentile (sort_floats finals) 2.5,
                         percentile (sort_floats finals) 97.5)) /\
      (len finals < 5 -> agg_car_ci agg = (nan, nan))
  | (Raise _, _) => False
  end.
Proof.
  destruct (run_event_study ln_special normal_equations Z pool_entropy Z lcg_seed lcg_draw
              sample_prices five_events "ALT" None (Some no_boot)
              (Some short_windows) 0) as [[agg|x] p'] eqn:E.
  - exact (aggregate_ci_of_terminal_cars ln_special normal_equations Z pool_entropy Z
             lcg_seed lcg_draw sample_prices five_events "ALT" None
             (Some no_boot) (Some short_windows) 0 p' agg E).
  - vm_compute in E. discriminate.
Defined.

Lemma mean_adjusted_model_witness :
  exists fit est0 ev,
    _market_model_ar normal_equations gap_returns None 0 gap_windows = Ok fit /\
    _slice_window gap_returns 0 (estimation gap_windows) = Ok est0 /\
    _slice_window gap_returns 0 (event gap_windows) = Ok ev /\
    let est := filter notna (values est0) in
    let mu := match est with [] => 0%float | _ :: _ => average est end in
    fit = (map_values (fun v => (v - mu)%float) ev, mu, 0%float).
Proof.
  destruct (mean_adjusted_model normal_equations gap_returns 0 gap_windows)
    as [Hfit Hret].
  destruct Hret as (fit & Hrun).
  - apply is_unique_NoDup. reflexivity.
  - reflexivity.
  - reflexivity.
  - reflexivity.
  - destruct (Hfit fit Hrun) as (est0 & ev & Hest & Hev & Heq).
    exists fit, est0, ev. auto.
Defined.


(** ** Further properties: the volatility helper *)

Lemma sqrt_not_negative (x : float) : (PrimFloat.sqrt x <? 0)%float = false.
Proof.
  rewrite FloatAxioms.ltb_spec, FloatAxioms.sqrt_spec.
  change (Prim2SF 0) with (S754_zero false).
  unfold SF64sqrt, SFsqrt, SFltb.
  destruct (Prim2SF x) as [s|s| |s m e]; try reflexivity.
  - destruct s; reflexivity.
  - destruct s; [reflexivity|].
    destruct (SFsqrt_core_binary prec emax (Z.pos m) e) as [[mz ez] lz].
    unfold binary_round_aux.
    destruct (shr_fexp prec emax mz ez lz) as [mrs' e'].
    destruct (shr_fexp prec emax _ e' loc_Exact) as [mrs'' e''].
    destruct (shr_m mrs'') as [|q|q]; try reflexivity.
    destruct (e'' <=? emax - prec); reflexivity.
Qed.

(** X15. The volatility helper returns the missing marker, and does not
    raise, on a series with fewer than two non-missing values; and whatever
    the series, it never returns a negative number. *)
Theorem rolling_std_edges (s : Series) :
  ((length (dropna s) <= 1)%nat -> is_nan (rolling_std s) = true) /\
  (rolling_std s <? 0)%float = false.
Proof.
  split; [|apply sqrt_not_negative].
  intros H. unfold rolling_std, nanvar_ddof1.
  assert (E : length (filter notna (values s)) = length (dropna s)).
  { rewrite <- values_dropna. unfold values. apply length_map. }
  rewrite E. apply Nat.leb_le in H. rewrite H. reflexivity.
Qed.

(** ** Further properties: the events loader *)

Lemma parse_timestamps_total (f : string -> option Z) (rows : list RawEvent) :
  timestamps_parse f rows ->
  parse_timestamps f rows = Returned (map (fun r => (r, parsed_ts f r)) rows).
Proof.
  induction 1 as [|r rest Hr _ IH]; simpl; [reflexivity|].
  unfold parsed_ts at 1. destruct (raw_ts_utc r) as [s|] eqn:E.
  - specialize (Hr s eq_refl). destruct (f s) as [t|]; [|contradiction].
    rewrite IH. reflexivity.
  - rewrite IH. reflexivity.
Qed.

Lemma parse_timestamps_Returned (f : string -> option Z) (rows : list RawEvent)
    (l : list (RawEvent * option Z)) :
  parse_timestamps f rows = Returned l -> timestamps_parse f rows.
Proof.
  revert l. induction rows as [|r rest IH]; intros l H; [constructor|].
  simpl in H. destruct (raw_ts_utc r) as [s|] eqn:E.
  - destruct (f s) as [t|] eqn:Ef; [|discriminate].
    destruct (parse_timestamps f rest) as [l'|e] eqn:El; [|discriminate].
    constructor; [|eapply IH; reflexivity].
    intros s' Hs'. rewrite E in Hs'. injection Hs' as <-. congruence.
  - destruct (parse_timestamps f rest) as [l'|e] eqn:El; [|discriminate].
    constructor; [|eapply IH; reflexivity].
    intros s' Hs'. congruence.
Qed.

Lemma missing_none_iff (cols : list string) :
  filter (fun c => negb (existsb (String.eqb c) cols)) REQUIRED_COLS = [] <->
  Forall (fun c => In c cols) REQUIRED_COLS.
Proof.
  assert (Hin : forall c, existsb (String.eqb c) cols = true <-> In c cols).
  { intros c. rewrite existsb_exists. split.
    - intros (x & Hx & E). apply String.eqb_eq in E. subst. exact Hx.
    - intros H. exists c. split; [exact H | apply String.eqb_refl]. }
  induction REQUIRED_COLS as [|c r IH]; simpl.
  - split; [constructor | reflexivity].
  - destruct (existsb (String.eqb c) cols) eqn:E; simpl.
    + rewrite IH. split.
      * intros H. constructor; [apply Hin; exact E | exact H].
      * intros H. inversion H. assumption.
    + split; [discriminate|]. intros H. inversion H as [|? ? Hc _]; subst.
      apply Hin in Hc. congruence.
Qed.

(** The rows of a loaded table, before the outcome is decided. *)
Lemma load_events_csv_Returned (P : DatetimeParser) (df : EventsCsv)
    (out : EventsFrame) :
  load_events_csv P df = Returned out ->
  Forall (fun c => In c (csv_columns df)) REQUIRED_COLS /\
  timestamps_parse (file_parser P df) (csv_rows df) /\
  csv_direction_text df = true /\
  out = {| ef_columns := csv_columns df;
           ef_rows := sort_by_ts (map (loaded_event (file_parser P df))
                                      (csv_rows df)) |}.
Proof.
  unfold load_events_csv, to_datetime_utc. fold (file_parser P df).
  set (f := file_parser P df). intros H.
  destruct (filter _ REQUIRED_COLS) as [|c r] eqn:Em; [|discriminate].
  apply missing_none_iff in Em.
  destruct (parse_timestamps f (csv_rows df)) as [parsed|e] eqn:Ep; [|discriminate].
  pose proof (parse_timestamps_Returned _ _ _ Ep) as Hts.
  rewrite (parse_timestamps_total _ _ Hts) in Ep. injection Ep as <-.
  destruct (csv_direction_text df); [|discriminate].
  injection H as <-. rewrite map_map. auto.
Qed.

(** X16. The events loader returns a table exactly when the file carries the
    seven required columns, every timestamp cell that is present parses in
    the format guessed from the first cell that is present (by dateutil when
    none is guessed), and the direction column was read as text: a cell in
    another format than the first raises, and a missing column is reported
    before any cell is looked at. *)
Theorem load_events_csv_returns_iff (P : DatetimeParser) (df : EventsCsv) :
  ((exists out, load_events_csv P df = Returned out) <->
   Forall (fun c => In c (csv_columns df)) REQUIRED_COLS /\
   timestamps_parse (file_parser P df) (csv_rows df) /\
   csv_direction_text df = true) /\
  (forall s0 fmt,
      first_present (map raw_ts_utc (csv_rows df)) = Some s0 ->
      guess_format P s0 = Some fmt ->
      file_parser P df = strptime P fmt) /\
  (~ Forall (fun c => In c (csv_columns df)) REQUIRED_COLS ->
   exists msg, load_events_csv P df = Thrown (CoreError (ValueError msg))).
Proof.
  split; [split|split].
  - intros [out H]. apply load_events_csv_Returned in H. tauto.
  - intros (Hc & Hts & Hd). unfold load_events_csv, to_datetime_utc.
    fold (file_parser P df).
    apply missing_none_iff in Hc. rewrite Hc.
    rewrite (parse_timestamps_total _ _ Hts), Hd. eexists. reflexivity.
  - intros s0 fmt Hs0 Hfmt. unfold file_parser, column_parser.
    rewrite Hs0, Hfmt. reflexivity.
  - intros Hc. unfold load_events_csv.
    destruct (filter _ REQUIRED_COLS) as [|c r] eqn:Em.
    + apply missing_none_iff in Em. contradiction.
    + eexists. reflexivity.
Qed.

Lemma ts_leb_total (a b : option Z) : ts_leb a b = false -> ts_leb b a = true.
Proof.
  destruct a as [x|], b as [y|]; simpl; try discriminate; try reflexivity.
  intros H. apply Z.leb_gt in H. apply Z.leb_le. lia.
Qed.

Lemma insert_by_ts_perm (x : Event) (l : list Event) :
  Permutation (insert_by_ts x l) (x :: l).
Proof.
  induction l as [|y r IH]; simpl; [reflexivity|].
  destruct (ts_leb (e_ts_utc x) (e_ts_utc y)); [reflexivity|].
  rewrite IH. apply perm_swap.
Qed.

Lemma sort_by_ts_perm (l : list Event) : Permutation (sort_by_ts l) l.
Proof.
  unfold sort_by_ts. induction l as [|x r IH]; simpl; [reflexivity|].
  rewrite insert_by_ts_perm, IH. reflexivity.
Qed.

Lemma insert_by_ts_sorted (x : Event) (l : list Event) :
  Sorted (fun a b => ts_leb (e_ts_utc a) (e_ts_utc b) = true) l ->
  Sorted (fun a b => ts_leb (e_ts_utc a) (e_ts_utc b) = true) (insert_by_ts x l).
Proof.
  induction 1 as [|y r Hr IH Hy]; simpl.
  - repeat constructor.
  - destruct (ts_leb (e_ts_utc x) (e_ts_utc y)) eqn:E.
    + constructor; [constructor; assumption|]. constructor. exact E.
    + constructor; [exact IH|].
      destruct r as [|z r']; simpl.
      * constructor. apply ts_leb_total. exact E.
      * destruct (ts_leb (e_ts_utc x) (e_ts_utc z)); constructor.
        -- apply ts_leb_total. exact E.
        -- inversion Hy. assumption.
Qed.

Lemma sort_by_ts_sorted (l : list Event) :
  Sorted (fun a b => ts_leb (e_ts_utc a) (e_ts_utc b) = true) (sort_by_ts l).
Proof.
  unfold sort_by_ts. induction l as [|x r IH]; simpl; [constructor|].
  apply insert_by_ts_sorted. exact IH.
Qed.

Lemma dict_get_direction (k v : string) :
  dict_get k direction_map = Some v ->
  In v ["pos"; "neg"; "neutral"]%string.
Proof.
  unfold direction_map. simpl.
  repeat match goal with
         | |- context [if ?c then _ else _] => destruct c
         end;
    intros H; try discriminate; injection H as <-; simpl; auto.
Qed.

Lemma normalize_direction_range (cell : option string) :
  In (normalize_direction cell) ["pos"; "neg"; "neutral"]%string.
Proof.
  unfold normalize_direction. destruct cell as [s|]; [|simpl; auto].
  destruct (dict_get (str_lower s) direction_map) as [v|] eqn:E; [|simpl; auto].
  eapply dict_get_direction. exact E.
Qed.

(** X17. A table the events loader returns has the columns of the file and
    the rows of the file, each with its timestamp parsed and its direction
    normalised, rearranged by ascending timestamp with the missing timestamps
    last; every direction is one of pos, neg and neutral. *)
Theorem load_events_csv_rows (P : DatetimeParser) (df : EventsCsv)
    (out : EventsFrame) :
  load_events_csv P df = Returned out ->
  ef_columns out = csv_columns df /\
  Permutation (ef_rows out)
              (map (loaded_event (file_parser P df)) (csv_rows df)) /\
  Sorted (fun a b => ts_leb (e_ts_utc a) (e_ts_utc b) = true) (ef_rows out) /\
  Forall (fun e => In (e_direction e) ["pos"; "neg"; "neutral"]%string) (ef_rows out).
Proof.
  intros H. apply load_events_csv_Returned in H. destruct H as (_ & _ & _ & ->).
  simpl. split; [reflexivity|]. split; [apply sort_by_ts_perm|].
  split; [apply sort_by_ts_sorted|].
  apply Forall_forall. intros e He.
  apply (Permutation_in _ (sort_by_ts_perm _)) in He.
  apply in_map_iff in He. destruct He as (r & <- & _). simpl.
  apply normalize_direction_range.
Qed.

Lemma lower_ascii_idem (c : Ascii.ascii) :
  lower_ascii (lower_ascii c) = lower_ascii c.
Proof.
  destruct c as [[] [] [] [] [] [] [] []]; reflexivity.
Qed.

Lemma str_lower_idem (s : string) : str_lower (str_lower s) = str_lower s.
Proof.
  induction s as [|c r IH]; simpl; [reflexivity|].
  rewrite lower_ascii_idem, IH. reflexivity.
Qed.

(** X18. The direction of a cell is always one of pos, neg and neutral; it
    does not depend on the case of the cell's letters, and normalising a
    normalised direction returns it unchanged. *)
Theorem normalize_direction_stable (cell : option string) :
  In (normalize_direction cell) ["pos"; "neg"; "neutral"]%string /\
  normalize_direction (Some (normalize_direction cell)) = normalize_direction cell /\
  (forall s, cell = Some s ->
             normalize_direction (Some (str_lower s)) = normalize_direction cell).
Proof.
  split; [apply normalize_direction_range|]. split.
  - pose proof (normalize_direction_range cell) as H. simpl in H.
    destruct H as [<-|[<-|[<-|[]]]]; reflexivity.
  - intros s ->. unfold normalize_direction. rewrite str_lower_idem. reflexivity.
Qed.

(** ** Further properties: the timestamp column of a downloaded frame *)

Lemma has_name_In {C : Type} (df : NamedColumns C) (n : string) :
  has_name df n = true <-> In n (column_names df).
Proof.
  unfold has_name. rewrite existsb_exists. split.
  - intros (x & Hx & E). apply String.eqb_eq in E. subst. exact Hx.
  - intros H. exists n. split; [exact H | apply String.eqb_refl].
Qed.

Lemma datetime_source_Returned {C : Type} (df : NamedColumns C) (src : string) :
  datetime_source df = Returned src ->
  In src (column_names df) /\
  (src = "datetime"%string \/ ~ In "datetime"%string (column_names df)).
Proof.
  unfold datetime_source. simpl.
  destruct (has_name df "datetime") eqn:E1.
  { intros H. injection H as <-. split; [apply has_name_In; exact E1 | auto]. }
  assert (Hno : ~ In "datetime"%string (column_names df)).
  { intros H. apply has_name_In in H. congruence. }
  destruct (has_name df "Datetime") eqn:E2.
  { intros H. injection H as <-. split; [apply has_name_In; exact E2 | auto]. }
  destruct (has_name df "date") eqn:E3.
  { intros H. injection H as <-. split; [apply has_name_In; exact E3 | auto]. }
  destruct (has_name df "Date") eqn:E4.
  { intros H. injection H as <-. split; [apply has_name_In; exact E4 | auto]. }
  destruct (has_name df "index") eqn:E5.
  { intros H. injection H as <-. split; [apply has_name_In; exact E5 | auto]. }
  destruct df as [|[c0 col0] rest]; [discriminate|].
  intros H. injection H as <-. split; [simpl; auto | auto].
Qed.

Lemma datetime_source_total {C : Type} (df : NamedColumns C) :
  df <> [] -> exists src, datetime_source df = Returned src.
Proof.
  intros Hne. unfold datetime_source.
  destruct (find (has_name df) _); [eauto|].
  destruct (has_name df "index"); [eauto|].
  destruct df as [|[c0 col0] rest]; [contradiction | eauto].
Qed.

Lemma rename_column_names {C : Type} (old new : string) (df : NamedColumns C) :
  column_names (rename_column old new df)
  = map (fun n => if String.eqb n old then new else n) (column_names df).
Proof.
  unfold column_names, rename_column. rewrite !map_map. apply map_ext.
  intros [n c]. simpl. destruct (String.eqb n old); reflexivity.
Qed.

Lemma filter_named_unique {C : Type} (l : NamedColumns C) (n : string) :
  NoDup (column_names l) -> In n (column_names l) ->
  exists c, In (n, c) l /\ filter (fun nc => String.eqb (fst nc) n) l = [(n, c)].
Proof.
  unfold column_names. induction l as [|[m c] r IH]; simpl; [intros _ []|].
  intros Hnd Hin. inversion Hnd as [|? ? Hm Hr]; subst.
  destruct (String.eqb_spec m n) as [->|Hne].
  - exists c. split; [auto|]. f_equal.
    clear IH Hin Hnd Hr. induction r as [|[m' c'] r' IH']; simpl; [reflexivity|].
    destruct (String.eqb_spec m' n) as [->|Hne'].
    + exfalso. apply Hm. simpl. auto.
    + apply IH'. intros H. apply Hm. simpl. auto.
  - destruct Hin as [E|Hin]; [contradiction|].
    destruct (IH Hr Hin) as (c' & Hc' & Hf). exists c'. split; [auto | exact Hf].
Qed.

(** X19. On a frame with distinct column names and at least one column, whose
    timestamps parse, the column helper returns a frame with the same number
    of columns in the same order, in which the source column (the first of
    datetime, Datetime, date and Date that is present, else index, else the
    first column) is called datetime and holds the parsed timestamps, and
    every other column is unchanged; a frame that already has a datetime
    column keeps all its names. *)
Theorem normalize_datetime_column_spec {C : Type} (to_datetime : C -> outcome C)
    (df : NamedColumns C) :
  NoDup (column_names df) ->
  df <> [] ->
  (forall col, exists col', to_datetime col = Returned col') ->
  exists src col col' out,
    datetime_source df = Returned src /\
    In (src, col) df /\
    to_datetime col = Returned col' /\
    _normalize_datetime_column to_datetime df = Returned out /\
    column_names out
    = map (fun n => if String.eqb n src then "datetime"%string else n)
          (column_names df) /\
    NoDup (column_names out) /\
    In ("datetime"%string, col') out /\
    (forall n c, In (n, c) out -> n <> "datetime"%string -> In (n, c) df) /\
    (In "datetime"%string (column_names df) -> column_names out = column_names df).
Proof.
  intros Hnd Hne Hparse.
  destruct (datetime_source_total df Hne) as (src & Hsrc).
  destruct (datetime_source_Returned df src Hsrc) as (Hin & Hdt).
  set (df1 := rename_column src "datetime" df).
  assert (Hnames1 : column_names df1
            = map (fun n => if String.eqb n src then "datetime"%string else n)
                  (column_names df)) by apply rename_column_names.
  assert (Hnd1 : NoDup (column_names df1)).
  { rewrite Hnames1. apply Injective_map_NoDup_in; [|exact Hnd].
    intros a b Ha Hb.
    destruct (String.eqb_spec a src) as [->|Ha'];
      destruct (String.eqb_spec b src) as [->|Hb']; auto.
    - intros <-. destruct Hdt as [->|Hdt]; [contradiction | contradiction].
    - intros ->. destruct Hdt as [->|Hdt]; [contradiction | contradiction]. }
  assert (Hin1 : In "datetime"%string (column_names df1)).
  { rewrite Hnames1. apply in_map_iff. exists src.
    rewrite String.eqb_refl. auto. }
  destruct (filter_named_unique df1 "datetime" Hnd1 Hin1) as (col & Hcol & Hf).
  destruct (Hparse col) as (col' & Hcol').
  assert (Hsrc_col : In (src, col) df).
  { unfold df1, rename_column in Hcol. apply in_map_iff in Hcol.
    destruct Hcol as ([n c] & E & Hnc). simpl in E.
    destruct (String.eqb_spec n src) as [->|Hn].
    - injection E as <-. exact Hnc.
    - injection E as -> ->. destruct Hdt as [->|Hdt]; [contradiction|].
      exfalso. apply Hdt. unfold column_names.
      change "datetime"%string with (fst ("datetime"%string, col)).
      apply in_map. exact Hnc. }
  exists src, col, col'.
  exists (map (fun nc => if String.eqb (fst nc) "datetime" then (fst nc, col') else nc) df1).
  assert (Hnames : column_names
            (map (fun nc : string * C =>
                    if String.eqb (fst nc) "datetime" then (fst nc, col') else nc) df1)
          = column_names df1).
  { unfold column_names. rewrite map_map. apply map_ext. intros [n c]. simpl.
    destruct (String.eqb n "datetime"); reflexivity. }
  split; [exact Hsrc|]. split; [exact Hsrc_col|]. split; [exact Hcol'|].
  split.
  { unfold _normalize_datetime_column. rewrite Hsrc. fold df1. rewrite Hf, Hcol'.
    reflexivity. }
  split; [rewrite Hnames; exact Hnames1|].
  split; [rewrite Hnames; exact Hnd1|].
  split.
  { apply in_map_iff. exists ("datetime"%string, col). simpl. auto. }
  split.
  { intros n c Hnc Hn. apply in_map_iff in Hnc.
    destruct Hnc as ([n1 c1] & E & Hnc1). simpl in E.
    destruct (String.eqb_spec n1 "datetime") as [->|Hn1].
    - injection E as <- _. contradiction.
    - injection E as -> ->. unfold df1, rename_column in Hnc1.
      apply in_map_iff in Hnc1. destruct Hnc1 as ([n0 c0] & E0 & Hnc0). simpl in E0.
      destruct (String.eqb n0 src); injection E0 as <- <-;
        [contradiction | exact Hnc0]. }
  intros Hhas. rewrite Hnames, Hnames1.
  destruct Hdt as [->|Hdt]; [|contradiction].
  rewrite <- (map_id (column_names df)) at 2. apply map_ext.
  intros n. destruct (String.eqb_spec n "datetime") as [->|]; reflexivity.
Qed.

(** ** Further worked examples *)

(** A window that starts three million hours after the anchor: the offset
    is no duration of the clock. *)
Example slice_window_far_away :
  exists msg,
    _slice_window sparse_returns 0 (3000000, 3000001)
    = Raise (OutOfBoundsTimedelta msg).
Proof. eexists. reflexivity. Qed.

Lemma slice_window_raises_when_witness :
  raises (_slice_window repeated_hour 0 (-1, 3)) /\
  raises (_slice_window sparse_returns 0 (3000000, 3000001)) /\
  ~ raises (_slice_window sparse_returns 0 (-1, 3)).
Proof.
  split; [|split].
  - apply (proj1 (slice_window_raises_when repeated_hour 0 (-1, 3))).
    intros H. inversion H as [|? ? Hin _]. apply Hin. simpl. auto.
  - apply (proj1 (proj2 (slice_window_raises_when sparse_returns 0 (3000000, 3000001)))).
    reflexivity.
  - apply (proj2 (proj2 (slice_window_raises_when sparse_returns 0 (-1, 3)))).
    + apply is_unique_NoDup. reflexivity.
    + reflexivity.
    + reflexivity.
Defined.

Lemma slice_window_value_witness :
  exists out v,
    _slice_window sparse_returns 0 (-1, 3) = Ok out /\
    nth_error out (Z.to_nat 1) = Some (0 + (-1 + 1) * hour, v) /\
    (forall x, In (0 + (-1 + 1) * hour, x) sparse_returns ->
               on_grid sparse_returns (0 + (-1 + 1) * hour) -> v = x) /\
    (~ on_grid sparse_returns (0 + (-1 + 1) * hour) -> is_nan v = true).
Proof.
  apply (slice_window_value sparse_returns 0 (-1) 3 1).
  - apply is_unique_NoDup. reflexivity.
  - reflexivity.
  - reflexivity.
  - lia.
Defined.

Lemma per_event_series_labels_witness :
  match run_event_study ln_special normal_equations Z pool_entropy Z lcg_seed lcg_draw
          sample_prices five_events "ALT" None (Some no_boot)
          (Some short_windows) 0 with
  | (Ok agg, _) =>
      Forall (fun e =>
                index (ar e) = date_range (t0 e + -1 * hour) (t0 e + 1 * hour) /\
                index (car e) = index (ar e) /\
                length (ar e) = 3%nat)
             (per_event agg)
  | (Raise _, _) => False
  end.
Proof.
  destruct (run_event_study ln_special normal_equations Z pool_entropy Z lcg_seed lcg_draw
              sample_prices five_events "ALT" None (Some no_boot)
              (Some short_windows) 0) as [[agg|x] p'] eqn:E.
  - exact (per_event_series_labels ln_special normal_equations Z pool_entropy Z
             lcg_seed lcg_draw sample_prices five_events "ALT" None
             (Some no_boot) (Some short_windows) 0 p' agg E).
  - vm_compute in E. discriminate.
Defined.

Lemma per_event_follows_events_witness :
  match run_event_study ln_special normal_equations Z pool_entropy Z lcg_seed lcg_draw
          sample_prices five_events "ALT" None (Some no_boot)
          (Some short_windows) 0 with
  | (Ok agg, _) =>
      map event_id (per_event agg) = ["a"; "b"; "c"; "d"; "e"]%string /\
      map t0 (per_event agg) = [4 * hour; 5 * hour; 6 * hour; 7 * hour; 8 * hour] /\
      Forall (fun e => symbol e = "ALT"%string) (per_event agg)
  | (Raise _, _) => False
  end.
Proof.
  destruct (run_event_study ln_special normal_equations Z pool_entropy Z lcg_seed lcg_draw
              sample_prices five_events "ALT" None (Some no_boot)
              (Some short_windows) 0) as [[agg|x] p'] eqn:E.
  - exact (per_event_follows_events ln_special normal_equations Z pool_entropy Z
             lcg_seed lcg_draw sample_prices five_events "ALT" None
             (Some no_boot) (Some short_windows) 0 p' agg E).
  - vm_compute in E. discriminate.
Defined.

Lemma mean_curves_relative_hours_witness :
  match run_event_study ln_special normal_equations Z pool_entropy Z lcg_seed lcg_draw
          sample_prices five_events "ALT" None (Some no_boot)
          (Some short_windows) 0 with
  | (Ok agg, _) =>
      index (mean_ar agg) = range_index (-1) (1 + 1) /\
      index (mean_car agg) = range_index (-1) (1 + 1) /\
      len (mean_ar agg) = Z.max 0 (1 - -1 + 1) /\
      forall k, 0 <= k <= 1 - -1 ->
                nth_error (index (mean_ar agg)) (Z.to_nat k) = Some (-1 + k)
  | (Raise _, _) => False
  end.
Proof.
  destruct (run_event_study ln_special normal_equations Z pool_entropy Z lcg_seed lcg_draw
              sample_prices five_events "ALT" None (Some no_boot)
              (Some short_windows) 0) as [[agg|x] p'] eqn:E.
  - exact (mean_curves_relative_hours ln_special normal_equations Z pool_entropy Z
             lcg_seed lcg_draw sample_prices five_events "ALT" None
             (Some no_boot) (Some short_windows) 0 p' agg E).
  - vm_compute in E. discriminate.
Defined.

Lemma mean_ar_positional_average_witness :
  match run_event_study ln_special normal_equations Z pool_entropy Z lcg_seed lcg_draw
          sample_prices five_events "ALT" None (Some no_boot)
          (Some short_windows) 0 with
  | (Ok agg, _) =>
      (1 < length (mean_ar agg))%nat /\
      nth_error (values (mean_ar agg)) 1
      = Some (mean (map (fun e => nth 1 (values (ar e)) nan) (per_event agg)))
  | (Raise _, _) => False
  end.
Proof.
  destruct (run_event_study ln_special normal_equations Z pool_entropy Z lcg_seed lcg_draw
              sample_prices five_events "ALT" None (Some no_boot)
              (Some short_windows) 0) as [[agg|x] p'] eqn:E.
  - assert (Hk : (1 < length (mean_ar agg))%nat).
    { pose proof E as E'. vm_compute in E'. injection E' as <- _.
      vm_compute. lia. }
    split; [exact Hk|].
    exact (mean_ar_positional_average ln_special normal_equations Z pool_entropy Z
             lcg_seed lcg_draw sample_prices five_events "ALT" None
             (Some no_boot) (Some short_windows) 0 p' agg 1%nat E Hk).
  - vm_compute in E. discriminate.
Defined.

Lemma event_interval_missing_witness :
  match run_event_study ln_special normal_equations Z pool_entropy Z lcg_seed lcg_draw
          sample_prices five_events "ALT" None
          (Some {| benchmark := None; use_bootstrap := true; n_boot := 50 |})
          (Some short_windows) 0 with
  | (Ok agg, _) =>
      Forall (fun e =>
                true = false \/
                len (dropna (ar e)) <= 3 \/
                -2 - -3 + 1 <= len (dropna (ar e)) + 10 ->
                car_ci e = (nan, nan))
             (per_event agg)
  | (Raise _, _) => False
  end.
Proof.
  destruct (run_event_study ln_special normal_equations Z pool_entropy Z lcg_seed lcg_draw
              sample_prices five_events "ALT" None
              (Some {| benchmark := None; use_bootstrap := true; n_boot := 50 |})
              (Some short_windows) 0) as [[agg|x] p'] eqn:E.
  - exact (event_interval_missing ln_special normal_equations Z pool_entropy Z
             lcg_seed lcg_draw sample_prices five_events "ALT" None
             (Some {| benchmark := None; use_bootstrap := true; n_boot := 50 |})
             (Some short_windows) 0 p' agg E).
  - vm_compute in E. discriminate.
Defined.

Lemma few_events_no_aggregate_interval_witness :
  match run_event_study ln_special normal_equations Z pool_entropy Z lcg_seed lcg_draw
          sample_prices (firstn 3 five_events) "ALT" None (Some no_boot)
          (Some short_windows) 0 with
  | (Ok agg, _) => agg_car_ci agg = (nan, nan)
  | (Raise _, _) => False
  end.
Proof.
  destruct (run_event_study ln_special normal_equations Z pool_entropy Z lcg_seed lcg_draw
              sample_prices (firstn 3 five_events) "ALT" None (Some no_boot)
              (Some short_windows) 0) as [[agg|x] p'] eqn:E.
  - apply (few_events_no_aggregate_interval ln_special normal_equations Z pool_entropy Z
             lcg_seed lcg_draw sample_prices (firstn 3 five_events) "ALT" None
             (Some no_boot) (Some short_windows) 0 p' agg E).
    vm_compute. lia.
  - vm_compute in E. discriminate.
Defined.

Lemma ols_short_operand_witness :
  ols_alpha_beta normal_equations (firstn 9 line_x) line_y = Ok (0%float, 0%float).
Proof.
  apply (ols_short_operand normal_equations (firstn 9 line_x) line_y).
  - apply is_unique_NoDup. reflexivity.
  - apply is_unique_NoDup. reflexivity.
  - left. vm_compute. reflexivity.
Defined.

Lemma short_estimation_zero_model_witness :
  exists ev_t ev_b,
    _slice_window gap_returns 0 (event gap_windows) = Ok ev_t /\
    _slice_window flat_history 0 (event gap_windows) = Ok ev_b /\
    _market_model_ar normal_equations gap_returns (Some flat_history) 0 gap_windows
    = Ok (series_sub ev_t (map_values (fun v => (0 + 0 * v)%float) ev_b),
          0%float, 0%float).
Proof.
  apply (short_estimation_zero_model normal_equations gap_returns flat_history 0
           gap_windows).
  - apply is_unique_NoDup. reflexivity.
  - apply is_unique_NoDup. reflexivity.
  - reflexivity.
  - reflexivity.
  - reflexivity.
  - reflexivity.
  - vm_compute. reflexivity.
Defined.

Lemma lcg_draws_in_range : draws_in_range Z lcg_draw.
Proof.
  intros g low high n Hlt. unfold lcg_draw. apply Forall_forall.
  intros s Hs. apply in_map_iff in Hs. destruct Hs as (k & <- & _).
  match goal with
  | |- low <= low + ?a mod ?b < high =>
      pose proof (Z.mod_pos_bound a b ltac:(lia))
  end.
  lia.
Qed.

Lemma bootstrap_ignores_last_row_witness :
  bootstrap_car_ci Z pool_entropy Z lcg_seed lcg_draw (flat_history ++ [last_row_a]) 1 3 42 0
  = bootstrap_car_ci Z pool_entropy Z lcg_seed lcg_draw (flat_history ++ [last_row_b]) 1 3 42 0 /\
  (1 < len (flat_history ++ [last_row_a]) ->
   Forall (fun s => length (iloc_slice (flat_history ++ [last_row_a]) s (s + 1))
                    = Z.to_nat 1)
          (lcg_draw (lcg_seed 42) 0 (len (flat_history ++ [last_row_a]) - 1)
                    (Z.to_nat 3))).
Proof.
  apply (bootstrap_ignores_last_row Z pool_entropy Z lcg_seed lcg_draw flat_history
           last_row_a last_row_b 1 3 42 0).
  - exact lcg_draws_in_range.
  - lia.
Defined.

Lemma plot_axis_matches_window_witness :
  match run_event_study ln_special normal_equations Z pool_entropy Z lcg_seed lcg_draw
          sample_prices five_events "ALT" None (Some no_boot)
          (Some short_windows) 0 with
  | (Ok agg, _) =>
      (map fst (plotted_line (mean_ar agg)) = index (mean_ar agg) <->
       1 < -1 \/ -1 = - ((1 - -1 + 1) / 2)) /\
      (map fst (plotted_line (mean_car agg)) = index (mean_car agg) <->
       1 < -1 \/ -1 = - ((1 - -1 + 1) / 2))
  | (Raise _, _) => False
  end.
Proof.
  destruct (run_event_study ln_special normal_equations Z pool_entropy Z lcg_seed lcg_draw
              sample_prices five_events "ALT" None (Some no_boot)
              (Some short_windows) 0) as [[agg|x] p'] eqn:E.
  - exact (plot_axis_matches_window ln_special normal_equations Z pool_entropy Z
             lcg_seed lcg_draw sample_prices five_events "ALT" None
             (Some no_boot) (Some short_windows) 0 p' agg E).
  - vm_compute in E. discriminate.
Defined.

Lemma to_returns_structure_witness :
  StronglySorted Z.lt (index (to_returns ln_special prices_neg)) /\
  Forall (fun t => 0 < t) (index (to_returns ln_special prices_zero)).
Proof.
  split.
  - apply (proj1 (proj2 (proj2 (to_returns_structure ln_special prices_neg))
                    ltac:(repeat constructor; reflexivity))).
  - apply (proj2 (proj2 (proj2 (to_returns_structure ln_special prices_zero))
                    ltac:(repeat constructor; reflexivity)) 0 [hour; 2 * hour]).
    reflexivity.
Defined.

Lemma ensure_symbol_frame_spec_witness :
  ensure_symbol_frame sample_prices "ALT"
  = Ok {| columns := columns sample_prices;
          rows := filter (fun r => String.eqb (row_symbol r) "ALT") (rows sample_prices) |}.
Proof.
  apply (proj1 (ensure_symbol_frame_spec sample_prices "ALT")).
  split; reflexivity.
Defined.

Lemma rolling_std_edges_witness :
  is_nan (rolling_std [(0, 1%float); (hour, nan)]) = true /\
  (rolling_std sparse_returns <? 0)%float = false.
Proof.
  split.
  - apply (proj1 (rolling_std_edges [(0, 1%float); (hour, nan)])).
    vm_compute. lia.
  - apply (proj2 (rolling_std_edges sparse_returns)).
Defined.

Lemma sample_timestamps_parse :
  timestamps_parse (file_parser sample_parser sample_events_csv)
                   (csv_rows sample_events_csv).
Proof.
  repeat constructor; intros s H; vm_compute in H; try discriminate;
    injection H as <-; vm_compute; discriminate.
Qed.

Lemma load_events_csv_returns_iff_witness :
  (exists out, load_events_csv sample_parser sample_events_csv = Returned out) /\
  ~ (exists out, load_events_csv sample_parser mixed_events_csv = Returned out).
Proof.
  split.
  - apply (proj1 (load_events_csv_returns_iff sample_parser sample_events_csv)).
    split; [|split].
    + apply Forall_forall. intros c Hc. exact Hc.
    + exact sample_timestamps_parse.
    + reflexivity.
  - intros H.
    apply (proj1 (load_events_csv_returns_iff sample_parser mixed_events_csv)) in H.
    destruct H as (_ & Hts & _).
    inversion Hts as [|r rest _ Hrest]; subst.
    inversion Hrest as [|r2 rest2 H2 _]; subst.
    apply (H2 "2024-03-02"%string); reflexivity.
Defined.

Lemma load_events_csv_rows_witness :
  match load_events_csv sample_parser sample_events_csv with
  | Returned out =>
      ef_columns out = csv_columns sample_events_csv /\
      Permutation (ef_rows out)
                  (map (loaded_event (file_parser sample_parser sample_events_csv))
                       (csv_rows sample_events_csv)) /\
      Sorted (fun a b => ts_leb (e_ts_utc a) (e_ts_utc b) = true) (ef_rows out) /\
      Forall (fun e => In (e_direction e) ["pos"; "neg"; "neutral"]%string)
             (ef_rows out)
  | Thrown _ => False
  end.
Proof.
  destruct (load_events_csv sample_parser sample_events_csv) as [out|e] eqn:E.
  - exact (load_events_csv_rows sample_parser sample_events_csv out E).
  - vm_compute in E. discriminate.
Defined.

(** The four rows of the sample file, loaded: in time order, the row without
    timestamp last, and the directions normalised. *)
Example load_sample_events :
  match load_events_csv sample_parser sample_events_csv with
  | Returned out =>
      map (fun e => (e_event_id e, e_direction e)) (ef_rows out)
      = [(Some "e1", "neg"); (Some "e2", "neutral"); (Some "e3", "pos");
         (Some "e4", "neutral")]%string
  | Thrown _ => False
  end.
Proof. vm_compute. reflexivity. Qed.

(** A date without time of day after a timestamp with one: the format is
    guessed from the first cell and the second cell is refused, although
    dateutil reads it. *)
Example load_mixed_formats_raises :
  dateutil_parse sample_parser "2024-03-02" = Some (474816 * hour) /\
  exists msg,
    load_events_csv sample_parser mixed_events_csv
    = Thrown (CoreError (ValueError msg)).
Proof. split; [reflexivity | eexists; reflexivity]. Qed.

Lemma normalize_datetime_column_spec_witness :
  exists src col col' out,
    datetime_source sample_download = Returned src /\
    In (src, col) sample_download /\
    accept_column col = Returned col' /\
    _normalize_datetime_column accept_column sample_download = Returned out /\
    column_names out
    = map (fun n => if String.eqb n src then "datetime"%string else n)
          (column_names sample_download) /\
    NoDup (column_names out) /\
    In ("datetime"%string, col') out /\
    (forall n c, In (n, c) out -> n <> "datetime"%string -> In (n, c) sample_download) /\
    (In "datetime"%string (column_names sample_download) ->
     column_names out = column_names sample_download).
Proof.
  apply (normalize_datetime_column_spec accept_column sample_download).
  - repeat constructor; simpl; intuition discriminate.
  - discriminate.
  - intros col. exists col. reflexivity.
Defined.
